(** * The honeypot manager (honeypots/manager.py)

    A shallow embedding of class [HoneypotManager]: the registry of decoy
    instances ([self.honeypots]), the configuration document
    ([self.config]), creation and removal of instances, the bulk and
    single start and stop operations, and loading and saving of the
    configuration.

    Python values are embedded as [pyval]; a method that can raise is a
    computation in the state-and-exception monad [M] over [state]. *)

From Stdlib Require Import ZArith Ascii String List.
From stdpp Require Import base option list gmap strings pretty.

Open Scope Z_scope.
Open Scope string_scope.
Open Scope list_scope.

(** ** Python values *)

(** The values a configuration document is made of: [None], integers,
    strings, lists and mappings with string keys.  Other YAML scalars
    (booleans, floats, timestamps) and mappings keyed by something else
    than a string are left out: the manager never looks inside them. *)
#[warnings="-register-all"]
Inductive pyval : Type :=
| PNone
| PInt (n : Z)
| PStr (s : string)
| PList (items : list pyval)
| PDict (entries : list (string * pyval)).

(** Built-in exceptions, all subclasses of [Exception]; [ServiceError]
    stands for whatever a decoy service raises.  What [except Exception]
    does not catch (task cancellation, interrupts) is not modelled. *)
Inductive exn : Type :=
| KeyError (key : string)
| TypeError
| AttributeError
| OSError
| YAMLError
| RuntimeError
| ServiceError (what : string).

(** Hashable values, as used for the keys of [self.honeypots]. *)
Inductive hkey : Type :=
| KNone
| KInt (n : Z)
| KStr (s : string).

#[global] Instance hkey_eq_dec : EqDecision hkey.
Proof. solve_decision. Defined.

#[global] Instance hkey_countable : Countable hkey.
Proof.
  refine (inj_countable'
    (λ k, match k with
          | KNone => inl ()
          | KInt n => inr (inl n)
          | KStr s => inr (inr s)
          end)
    (λ x, match x with
          | inl _ => KNone
          | inr (inl n) => KInt n
          | inr (inr s) => KStr s
          end) _).
  by intros [].
Defined.

(** [hash(v)]: lists and dicts are unhashable. *)
Definition to_key (v : pyval) : option hkey :=
  match v with
  | PNone => Some KNone
  | PInt n => Some (KInt n)
  | PStr s => Some (KStr s)
  | PList _ | PDict _ => None
  end.

Definition of_key (k : hkey) : pyval :=
  match k with
  | KNone => PNone
  | KInt n => PInt n
  | KStr s => PStr s
  end.

(** [v == k] for a hashable [k]: a list or a dict never equals it. *)
Definition eq_key (v : pyval) (k : hkey) : bool :=
  bool_decide (to_key v = Some k).

(** Truth value of [v], as tested by [if v:]. *)
Definition truthy (v : pyval) : bool :=
  match v with
  | PNone => false
  | PInt n => negb (n =? 0)%Z
  | PStr s => negb (String.eqb s "")
  | PList l => match l with [] => false | _ => true end
  | PDict d => match d with [] => false | _ => true end
  end.

(** *** Dictionaries as insertion-ordered association lists *)

Fixpoint dict_lookup (d : list (string * pyval)) (key : string) : option pyval :=
  match d with
  | [] => None
  | (k, v) :: rest => if String.eqb k key then Some v else dict_lookup rest key
  end.

(** [d[key] = v]: an existing key keeps its position. *)
Fixpoint dict_store (d : list (string * pyval)) (key : string) (v : pyval)
  : list (string * pyval) :=
  match d with
  | [] => [(key, v)]
  | (k, w) :: rest =>
      if String.eqb k key then (k, v) :: rest else (k, w) :: dict_store rest key v
  end.

(** [v.get(key, default)]: only a dict has the method. *)
Definition py_get (v : pyval) (key : string) (dflt : pyval) : exn + pyval :=
  match v with
  | PDict d => inr (default dflt (dict_lookup d key))
  | _ => inl AttributeError
  end.

(** [v[key]] for a string [key]. *)
Definition py_getitem (v : pyval) (key : string) : exn + pyval :=
  match v with
  | PDict d =>
      match dict_lookup d key with
      | Some x => inr x
      | None => inl (KeyError key)
      end
  | _ => inl TypeError
  end.

Fixpoint chars (s : string) : list pyval :=
  match s with
  | EmptyString => []
  | String c rest => PStr (String c EmptyString) :: chars rest
  end.

(** [iter(v)]: the elements a [for] loop over [v] visits. *)
Definition py_iter (v : pyval) : exn + list pyval :=
  match v with
  | PList l => inr l
  | PDict d => inr (map (λ kv, PStr (fst kv)) d)
  | PStr s => inr (chars s)
  | PNone | PInt _ => inl TypeError
  end.

(** [a == b]: lists are compared in order, mappings entry by entry
    whatever the order of their keys (which are distinct in a mapping). *)
Fixpoint py_equal (a b : pyval) {struct a} : bool :=
  match a, b with
  | PNone, PNone => true
  | PInt n, PInt k => (n =? k)%Z
  | PStr s, PStr t => String.eqb s t
  | PList l, PList l' =>
      (fix items (l l' : list pyval) {struct l} : bool :=
         match l, l' with
         | [], [] => true
         | x :: rest, y :: rest' => py_equal x y && items rest rest'
         | _, _ => false
         end) l l'
  | PDict d, PDict d' =>
      (fix entries (d : list (string * pyval)) {struct d} : bool :=
         match d with
         | [] => true
         | (k, v) :: rest =>
             match dict_lookup d' k with
             | Some w => py_equal v w && entries rest
             | None => false
             end
         end) d
      && forallb (λ kv, bool_decide (is_Some (dict_lookup d (fst kv)))) d'
  | _, _ => false
  end.

(** The value a record holds under [key], if it is a record that has
    one. *)
Definition field (d : pyval) (key : string) : option pyval :=
  match d with
  | PDict entries => dict_lookup entries key
  | _ => None
  end.

(** Two definitions that are equal as Python values: under every key both
    hold equal values, or neither holds one. *)
Definition same_fields (d d' : pyval) : Prop :=
  py_equal d d' = true ∧
  ∀ key, match field d key, field d' key with
         | Some v, Some w => py_equal v w = true
         | None, None => True
         | _, _ => False
         end.

(** ** Decoy services *)

(** The two service classes the manager instantiates. *)
Inductive decoy_class : Type := SSHHoneypot | WebHoneypot.

(** The [status] attribute of a service, read by the manager as
    ['Active'] or something else. *)
Inductive lifecycle : Type := Inactive | Active.

#[global] Instance lifecycle_eq_dec : EqDecision lifecycle.
Proof. solve_decision. Defined.

(** Modelled from the spec: the service classes of honeypots/ssh_honeypot.py
    and honeypots/web_honeypot.py.  An instance records the constructor's
    arguments [(id, bind_address, port, options)] and its lifecycle state.
    As an object that defines neither [__bool__] nor [__len__], an instance
    is true where the manager tests it with [if honeypot:]. *)
Record Honeypot : Type := mkHoneypot {
  hp_class : decoy_class;
  hp_id : pyval;
  hp_ip : pyval;
  hp_port : pyval;
  hp_options : list (string * pyval);
  status : lifecycle
}.

Definition set_status (st : lifecycle) (h : Honeypot) : Honeypot :=
  mkHoneypot (hp_class h) (hp_id h) (hp_ip h) (hp_port h) (hp_options h) st.

(** What the manager does not define itself: the string and YAML library
    functions it calls, and the points at which a decoy service may fail. *)
Class Env : Type := {
  (** [str.upper] *)
  upper : string → string;
  (** [yaml.safe_load] on the text of a file *)
  yaml_safe_load : string → exn + pyval;
  (** [yaml.dump(value, default_flow_style=False)] *)
  yaml_dump : pyval → string;
  (** the exception a service constructor raises on these arguments, if any *)
  constructor_raises :
    decoy_class → pyval → pyval → pyval → list (string * pyval) → option exn;
  (** the exception [start()] of this service ends with, if any *)
  start_raises : Honeypot → option exn;
  (** the exception [stop()] of this service ends with, if any *)
  stop_raises : Honeypot → option exn;
  (** [get_status()] of this service *)
  get_status : Honeypot → pyval
}.

(** Modelled from the spec: the constructor contract
    [(id, bind_address, port, options) → handle | raises on invalid options];
    a new handle is [Inactive]. *)
Definition new_honeypot `{Env} (c : decoy_class) (honeypot_id ip port : pyval)
    (options : list (string * pyval)) : exn + Honeypot :=
  match constructor_raises c honeypot_id ip port options with
  | Some e => inl e
  | None => inr (mkHoneypot c honeypot_id ip port options Inactive)
  end.

(** Modelled from the spec: [start()] suspends until the service is
    listening, which makes it [Active], or fails and leaves it as it was. *)
Definition hp_start `{Env} (h : Honeypot) : exn + Honeypot :=
  match start_raises h with
  | Some e => inl e
  | None => inr (set_status Active h)
  end.

(** Modelled from the spec: [stop()] suspends until the listener is
    released, which makes the service [Inactive], or fails. *)
Definition hp_stop `{Env} (h : Honeypot) : exn + Honeypot :=
  match stop_raises h with
  | Some e => inl e
  | None => inr (set_status Inactive h)
  end.

(** ** Log records and files *)

Inductive level : Type := INFO | WARNING | ERROR.

(** A formatted message, kept as the pieces of its f-string. *)
Inductive fragment : Type :=
| Lit (s : string)
| Fmt (v : pyval)
| FmtExn (e : exn).

Record log_record : Type := mkLog { lvl : level; msg : list fragment }.

Inductive node : Type :=
| File (text : string)
| Directory.

(** ** The manager and what it acts on

    [honeypots], [config] and [running] are the attributes of the
    object; [log] collects the records sent to the ["honeypot.manager"]
    logger, oldest first; [disk] maps a path to what is stored there. *)
Record state : Type := mkState {
  honeypots : gmap hkey Honeypot;
  config : pyval;
  running : bool;
  log : list log_record;
  disk : gmap string node
}.

Definition set_honeypots (f : gmap hkey Honeypot → gmap hkey Honeypot) (m : state) :=
  mkState (f (honeypots m)) (config m) (running m) (log m) (disk m).
Definition set_config (c : pyval) (m : state) :=
  mkState (honeypots m) c (running m) (log m) (disk m).
Definition set_running (b : bool) (m : state) :=
  mkState (honeypots m) (config m) b (log m) (disk m).
Definition add_log (r : log_record) (m : state) :=
  mkState (honeypots m) (config m) (running m) (log m ++ [r]) (disk m).
Definition add_logs (rs : list log_record) (m : state) :=
  mkState (honeypots m) (config m) (running m) (log m ++ rs) (disk m).
Definition set_disk (d : gmap string node) (m : state) :=
  mkState (honeypots m) (config m) (running m) (log m) d.

(** ** Computations that change the state and may raise *)

Definition M (A : Type) : Type := state → (exn + A) * state.

Definition ret {A} (a : A) : M A := λ m, (inr a, m).
Definition raise {A} (e : exn) : M A := λ m, (inl e, m).
Definition bind {A B} (c : M A) (k : A → M B) : M B :=
  λ m, match c m with
       | (inr a, m') => k a m'
       | (inl e, m') => (inl e, m')
       end.
Definition gets {A} (f : state → A) : M A := λ m, (inr (f m), m).
Definition modify (f : state → state) : M unit := λ m, (inr tt, f m).
(** A pure operation of the language that returns or raises. *)
Definition lift {A} (r : exn + A) : M A := λ m, (r, m).
(** [try: body except Exception as e: handler e] *)
Definition try_except {A} (body : M A) (handler : exn → M A) : M A :=
  λ m, match body m with
       | (inr a, m') => (inr a, m')
       | (inl e, m') => handler e m'
       end.

Notation "x <- c1 ;; c2" := (bind c1 (λ x, c2))
  (at level 100, c1 at next level, right associativity).
Notation "c1 ;; c2" := (bind c1 (λ _, c2))
  (at level 100, right associativity).

Definition logger (l : level) (message : list fragment) : M unit :=
  modify (add_log (mkLog l message)).

Fixpoint for_each {A} (l : list A) (body : A → M unit) : M unit :=
  match l with
  | [] => ret tt
  | x :: rest => body x ;; for_each rest body
  end.

(** ** HoneypotManager *)

Section Manager.
Context `{Env}.

(** The literal assigned to [self.config] when no file is loaded. *)
Definition default_config : pyval :=
  PDict [("honeypots", PList [
    PDict [("id", PStr "ssh-honeypot-1");
           ("type", PStr "SSH");
           ("ip", PStr "0.0.0.0");
           ("port", PInt 2222);
           ("options",
            PDict [("banner", PStr "SSH-2.0-OpenSSH_8.2p1 Ubuntu-4ubuntu0.5")])];
    PDict [("id", PStr "web-honeypot-1");
           ("type", PStr "Web");
           ("ip", PStr "0.0.0.0");
           ("port", PInt 8080);
           ("options",
            PDict [("server_type", PStr "Apache/2.4.41 (Ubuntu)")])]])].

(** [open(path, 'r')] followed by reading the whole file. *)
Definition open_read (path : string) : M string :=
  d <- gets disk ;;
  match d !! path with
  | Some (File text) => ret text
  | Some Directory | None => raise OSError
  end.

(** The directory a path names and the name in it: what precedes the
    last ['/'] and what follows it.  A path without ['/'] names an entry of
    the current directory. *)
Fixpoint split_path (path : string) : option string * string :=
  match path with
  | EmptyString => (None, EmptyString)
  | String c rest =>
      match split_path rest with
      | (Some dir, name) => (Some (String c dir), name)
      | (None, name) =>
          if Ascii.eqb c "/" then (Some EmptyString, name)
          else (None, String c name)
      end
  end.

(** [os.path.isdir] *)
Definition is_directory (d : gmap string node) (path : string) : bool :=
  match d !! path with
  | Some Directory => true
  | Some (File _) | None => false
  end.

(** Whether [open(path, 'w')] succeeds: the path names an entry (it is
    not empty, does not end in ['/'] and does not end in the name ['.'] or
    ['..'] of a directory) of a directory that exists (the current
    directory, the root, or a directory of [d]), and is not a directory
    itself.  Paths are the names the operating system accepts; access
    rights and the space left on the device are not part of [d]. *)
Definition writable (d : gmap string node) (path : string) : bool :=
  let (dir, name) := split_path path in
  negb (bool_decide (name ∈ [""; "."; ".."]))
  && match dir with
     | None => true
     | Some parent => String.eqb parent "" || is_directory d parent
     end
  && negb (is_directory d path).

(** [open(path, 'w')] followed by writing [text]: the file is created or
    replaced. *)
Definition open_write (path : string) (text : string) : M unit :=
  d <- gets disk ;;
  if writable d path
  then modify (set_disk (<[path := File text]> d))
  else raise OSError.

Definition load_config (config_file : string) : M unit :=
  try_except
    (text <- open_read config_file ;;
     doc <- lift (yaml_safe_load text) ;;
     modify (set_config doc) ;;
     logger INFO [Lit "Configuration loaded from "; Fmt (PStr config_file)])
    (λ e,
     logger ERROR [Lit "Failed to load configuration: "; FmtExn e] ;;
     modify (set_config (PDict [("honeypots", PList [])]))).

Definition save_config (config_file : string) : M unit :=
  try_except
    (c <- gets config ;;
     open_write config_file (yaml_dump c) ;;
     logger INFO [Lit "Configuration saved to "; Fmt (PStr config_file)])
    (λ e, logger ERROR [Lit "Failed to save configuration: "; FmtExn e]).

(** [os.path.exists] *)
Definition path_exists (d : gmap string node) (path : string) : bool :=
  bool_decide (is_Some (d !! path)).

(** [HoneypotManager(config_file)] in a process that sees the files [d]. *)
Definition init (config_file : option string) (d : gmap string node) : state :=
  let blank := mkState ∅ (PDict []) false [] d in
  match config_file with
  | Some path =>
      if truthy (PStr path) && path_exists d path
      then snd (load_config path blank)
      else set_config default_config blank
  | None => set_config default_config blank
  end.

(** [honeypot_type.upper()] *)
Definition py_upper (v : pyval) : exn + string :=
  match v with
  | PStr s => inr (upper s)
  | _ => inl AttributeError
  end.

(** The branch of [create_honeypot] an upper-cased tag selects. *)
Definition class_of_tag (tag : string) : option decoy_class :=
  if String.eqb tag "SSH" then Some SSHHoneypot
  else if String.eqb tag "WEB" then Some WebHoneypot
  else None.

(** [any(h['id'] == honeypot_id for h in items)] *)
Fixpoint any_has_id (k : hkey) (items : list pyval) : exn + bool :=
  match items with
  | [] => inr false
  | h :: rest =>
      match py_getitem h "id" with
      | inl e => inl e
      | inr v => if eq_key v k then inr true else any_has_id k rest
      end
  end.

(** [[h for h in items if h['id'] != honeypot_id]] *)
Fixpoint without_id (k : hkey) (items : list pyval) : exn + list pyval :=
  match items with
  | [] => inr []
  | h :: rest =>
      match py_getitem h "id" with
      | inl e => inl e
      | inr v =>
          match without_id k rest with
          | inl e => inl e
          | inr kept => inr (if eq_key v k then kept else h :: kept)
          end
      end
  end.

(** [self.config.setdefault('honeypots', []).append(d)] *)
Definition append_definition (d : pyval) : M unit :=
  cfg <- gets config ;;
  match cfg with
  | PDict entries =>
      match dict_lookup entries "honeypots" with
      | None =>
          modify (set_config (PDict (dict_store entries "honeypots" (PList [d]))))
      | Some (PList l) =>
          modify (set_config
                    (PDict (dict_store entries "honeypots" (PList (l ++ [d])))))
      | Some _ => raise AttributeError
      end
  | _ => raise AttributeError
  end.

(** [self.config.get('honeypots', [])], ready to be iterated. *)
Definition configured : M (list pyval) :=
  cfg <- gets config ;;
  defs <- lift (py_get cfg "honeypots" (PList [])) ;;
  lift (py_iter defs).

Definition create_honeypot (honeypot_id honeypot_type ip port : pyval)
    (options : list (string * pyval)) : M (option Honeypot) :=
  match to_key honeypot_id with
  | None => raise TypeError
  | Some k =>
      reg <- gets honeypots ;;
      match reg !! k with
      | Some existing =>
          logger WARNING
            [Lit "Honeypot with ID "; Fmt honeypot_id; Lit " already exists"] ;;
          ret (Some existing)
      | None =>
          try_except
            (tag <- lift (py_upper honeypot_type) ;;
             match class_of_tag tag with
             | None =>
                 logger ERROR
                   [Lit "Unsupported honeypot type: "; Fmt honeypot_type] ;;
                 ret None
             | Some c =>
                 honeypot <- lift (new_honeypot c honeypot_id ip port options) ;;
                 modify (set_honeypots (insert k honeypot)) ;;
                 logger INFO [Lit "Created "; Fmt honeypot_type;
                              Lit " honeypot with ID "; Fmt honeypot_id] ;;
                 items <- configured ;;
                 known <- lift (any_has_id k items) ;;
                 (if known then ret tt
                  else append_definition
                         (PDict [("id", honeypot_id);
                                 ("type", honeypot_type);
                                 ("ip", ip);
                                 ("port", port);
                                 ("options", PDict options)])) ;;
                 ret (Some honeypot)
             end)
            (λ e,
             logger ERROR [Lit "Failed to create honeypot: "; FmtExn e] ;;
             ret None)
      end
  end.

(** [asyncio.create_task]: needs a running event loop. *)
Definition create_task (in_loop : bool) : M unit :=
  if in_loop then ret tt else raise RuntimeError.

(** [self.config['honeypots'] = v] *)
Definition store_definitions (v : pyval) : M unit :=
  cfg <- gets config ;;
  match cfg with
  | PDict entries => modify (set_config (PDict (dict_store entries "honeypots" v)))
  | _ => raise TypeError
  end.

(** [remove_honeypot]; [in_loop] tells whether the caller runs inside an
    event loop.  The stop task of an [Active] instance is detached: it
    acts on an object the manager no longer refers to. *)
Definition remove_honeypot (in_loop : bool) (honeypot_id : pyval) : M bool :=
  match to_key honeypot_id with
  | None => raise TypeError
  | Some k =>
      reg <- gets honeypots ;;
      match reg !! k with
      | None =>
          logger WARNING
            [Lit "Honeypot with ID "; Fmt honeypot_id; Lit " does not exist"] ;;
          ret false
      | Some honeypot =>
          try_except
            ((if bool_decide (status honeypot = Active)
              then create_task in_loop else ret tt) ;;
             modify (set_honeypots (delete k)) ;;
             items <- configured ;;
             kept <- lift (without_id k items) ;;
             store_definitions (PList kept) ;;
             logger INFO [Lit "Removed honeypot with ID "; Fmt honeypot_id] ;;
             ret true)
            (λ e,
             logger ERROR [Lit "Failed to remove honeypot: "; FmtExn e] ;;
             ret false)
      end
  end.

(** [self.honeypots.get(honeypot_id)] *)
Definition get_honeypot (honeypot_id : pyval) : M (option Honeypot) :=
  match to_key honeypot_id with
  | None => raise TypeError
  | Some k => reg <- gets honeypots ;; ret (reg !! k)
  end.

Definition get_all_honeypots : M (gmap hkey Honeypot) := gets honeypots.

Inductive status_reply : Type :=
| StatusOf (snapshot : pyval)
| NoStatus
| StatusOfAll (snapshots : gmap hkey pyval).

(** [get_honeypot_status(honeypot_id=None)] *)
Definition get_honeypot_status (honeypot_id : pyval) : M status_reply :=
  if truthy honeypot_id then
    found <- get_honeypot honeypot_id ;;
    match found with
    | Some honeypot => ret (StatusOf (get_status honeypot))
    | None => ret NoStatus
    end
  else
    reg <- gets honeypots ;;
    ret (StatusOfAll (get_status <$> reg)).

(** *** Tasks

    A task runs one coroutine of one service.  The coroutines of
    different services touch different objects, so the outcome of a
    batch of tasks is the outcome of each one taken alone. *)
Inductive settled : Type :=
| Done
| Failed (e : exn).

Definition run_task (coroutine : Honeypot → exn + Honeypot) (h : Honeypot)
  : Honeypot * settled :=
  match coroutine h with
  | inr h' => (h', Done)
  | inl e => (h, Failed e)
  end.

Fixpoint first_failure {K} (results : list (K * settled)) : option exn :=
  match results with
  | [] => None
  | (_, Failed e) :: _ => Some e
  | (_, Done) :: rest => first_failure rest
  end.

(** [await asyncio.gather( *tasks, return_exceptions=flag)]: with the flag
    set, the exception of a task is one of the results; without it, the
    first one is raised to the awaiting caller. *)
Definition gather {K} (return_exceptions : bool) (results : list (K * settled))
  : M (list (K * settled)) :=
  if return_exceptions then ret results
  else match first_failure results with
       | Some e => raise e
       | None => ret results
       end.

(** The parameters of [create_honeypot] that [start_all] gives by
    position; what a call gives by keyword besides them goes to
    [**options]. *)
Definition create_honeypot_parameters : list string :=
  ["self"; "honeypot_id"; "honeypot_type"; "ip"; "port"].

(** [**v] in the call [self.create_honeypot(a, b, c, d, **v)]: [v] has to
    be a mapping, and none of its keys may name a parameter, which already
    has its value. *)
Definition keyword_arguments (v : pyval) : exn + list (string * pyval) :=
  match v with
  | PDict d =>
      if forallb
           (λ kv, negb (existsb (String.eqb (fst kv)) create_honeypot_parameters))
           d
      then inr d
      else inl TypeError
  | _ => inl TypeError
  end.

(** Body of the first loop of [start_all]. *)
Definition ensure_created (honeypot_config : pyval) : M unit :=
  honeypot_id <- lift (py_getitem honeypot_config "id") ;;
  match to_key honeypot_id with
  | None => raise TypeError
  | Some k =>
      reg <- gets honeypots ;;
      match reg !! k with
      | Some _ => ret tt
      | None =>
          honeypot_type <- lift (py_getitem honeypot_config "type") ;;
          ip <- lift (py_get honeypot_config "ip" (PStr "0.0.0.0")) ;;
          port <- lift (py_get honeypot_config "port" (PInt 0)) ;;
          opts <- lift (py_get honeypot_config "options" (PDict [])) ;;
          options <- lift (keyword_arguments opts) ;;
          create_honeypot honeypot_id honeypot_type ip port options ;;
          ret tt
      end
  end.

(** Pairs an id with how the task of its service ended. *)
Definition results_of (coroutine : Honeypot → exn + Honeypot)
    (tasks : list (hkey * Honeypot)) : list (hkey * settled) :=
  map (λ kh, (fst kh, snd (run_task coroutine (snd kh)))) tasks.

(** First loop of [start_all].  The list is not changed while it is
    walked: [create_honeypot] runs for the id of an item of the list, so
    it finds a definition with that id and appends none (lemma
    [create_configured_config] below). *)
Definition create_configured : M unit :=
  items <- configured ;;
  for_each items ensure_created.

(** [start_all]: the first loop creates what is configured but not
    registered; the second makes a task of [start()] for every item of
    [self.honeypots.items()]; the tasks run when [gather] is awaited.  The
    value is what [gather] collected, which the method itself drops.

    A Python [dict] enumerates its items in the order of their insertion,
    which the registry, a finite map, does not record: [map_to_list]
    gives the same items in an order of its own.  What is stated about the
    tasks, the results and the records of the second loop is therefore
    stated up to their order. *)
Definition start_all : M (list (hkey * settled)) :=
  modify (set_running true) ;;
  create_configured ;;
  reg <- gets honeypots ;;
  let tasks := map_to_list reg in
  for_each tasks
    (λ kh, logger INFO [Lit "Starting honeypot "; Fmt (of_key (fst kh))]) ;;
  modify (set_honeypots (fmap (λ h, fst (run_task hp_start h)))) ;;
  gather true (results_of hp_start tasks).

(** [stop_all]: a task of [stop()] for every item whose status is
    ['Active']. *)
Definition stop_all : M (list (hkey * settled)) :=
  modify (set_running false) ;;
  reg <- gets honeypots ;;
  let tasks :=
    filter (λ kh, status (snd kh) = Active) (map_to_list reg) in
  for_each tasks
    (λ kh, logger INFO [Lit "Stopping honeypot "; Fmt (of_key (fst kh))]) ;;
  modify (set_honeypots
            (fmap (λ h, if bool_decide (status h = Active)
                        then fst (run_task hp_stop h) else h))) ;;
  gather true (results_of hp_stop tasks).

(** The object registered under [honeypot_id] has become [h]. *)
Definition write_back (honeypot_id : pyval) (h : Honeypot) : M unit :=
  match to_key honeypot_id with
  | Some k => modify (set_honeypots (insert k h))
  | None => ret tt
  end.

Definition start_honeypot (honeypot_id : pyval) : M bool :=
  found <- get_honeypot honeypot_id ;;
  match found with
  | None =>
      logger WARNING
        [Lit "Honeypot with ID "; Fmt honeypot_id; Lit " does not exist"] ;;
      ret false
  | Some honeypot =>
      try_except
        ((if bool_decide (status honeypot ≠ Active) then
            started <- lift (hp_start honeypot) ;;
            write_back honeypot_id started ;;
            logger INFO [Lit "Started honeypot "; Fmt honeypot_id]
          else ret tt) ;;
         ret true)
        (λ e,
         logger ERROR [Lit "Failed to start honeypot "; Fmt honeypot_id;
                       Lit ": "; FmtExn e] ;;
         ret false)
  end.

Definition stop_honeypot (honeypot_id : pyval) : M bool :=
  found <- get_honeypot honeypot_id ;;
  match found with
  | None =>
      logger WARNING
        [Lit "Honeypot with ID "; Fmt honeypot_id; Lit " does not exist"] ;;
      ret false
  | Some honeypot =>
      try_except
        ((if bool_decide (status honeypot = Active) then
            stopped <- lift (hp_stop honeypot) ;;
            write_back honeypot_id stopped ;;
            logger INFO [Lit "Stopped honeypot "; Fmt honeypot_id]
          else ret tt) ;;
         ret true)
        (λ e,
         logger ERROR [Lit "Failed to stop honeypot "; Fmt honeypot_id;
                       Lit ": "; FmtExn e] ;;
         ret false)
  end.

(** ** Views used to state properties *)

(** The definition set a state holds: what [start_all] would iterate. *)
Definition definitions (m : state) : list pyval :=
  match fst (configured m) with
  | inr items => items
  | inl _ => []
  end.

(** [d] is a definition for the id [k]. *)
Definition has_id (k : hkey) (d : pyval) : bool :=
  match py_getitem d "id" with
  | inr v => eq_key v k
  | inl _ => false
  end.

(** The instances the constructors build from the two default
    definitions. *)
Definition default_ssh : Honeypot :=
  mkHoneypot SSHHoneypot (PStr "ssh-honeypot-1") (PStr "0.0.0.0") (PInt 2222)
    [("banner", PStr "SSH-2.0-OpenSSH_8.2p1 Ubuntu-4ubuntu0.5")] Inactive.
Definition default_web : Honeypot :=
  mkHoneypot WebHoneypot (PStr "web-honeypot-1") (PStr "0.0.0.0") (PInt 8080)
    [("server_type", PStr "Apache/2.4.41 (Ubuntu)")] Inactive.

(** The records [start_all] logs for the tasks it makes. *)
Definition announced (tasks : list (hkey * Honeypot)) : list log_record :=
  map (λ kh, mkLog INFO [Lit "Starting honeypot "; Fmt (of_key (fst kh))]) tasks.

(** How many definitions the state holds for the id [k]. *)
Definition count_definitions (k : hkey) (m : state) : nat :=
  length (filter (λ d, has_id k d = true) (definitions m)).

(** The persisted layout: a mapping whose key ['honeypots'], when
    present, holds a list of records that each have an ['id'], no two of
    them for the same id. *)
Definition well_formed (c : pyval) : Prop :=
  ∃ items,
    py_get c "honeypots" (PList []) = inr (PList items) ∧
    Forall (λ d, ∃ v, py_getitem d "id" = inr v) items ∧
    ∀ k, (length (filter (λ d, has_id k d = true) items) ≤ 1)%nat.

(** Every registered instance has exactly one definition. *)
Definition registry_backed (m : state) : Prop :=
  ∀ k h, honeypots m !! k = Some h → count_definitions k m = 1%nat.

(** The configuration has the persisted layout and backs the registry. *)
Definition consistent (m : state) : Prop :=
  well_formed (config m) ∧ registry_backed m.

(** A definition the first loop of [start_all] can turn into an instance:
    a record with a hashable id, a type tag that selects a class, options
    that, when given, are a mapping without a key that names a parameter
    of [create_honeypot], and a constructor that accepts the arguments
    read from the record. *)
Definition startable (d : pyval) : Prop :=
  ∃ honeypot_id k ty c ip port o opts,
    py_getitem d "id" = inr honeypot_id ∧ to_key honeypot_id = Some k ∧
    py_getitem d "type" = inr (PStr ty) ∧ class_of_tag (upper ty) = Some c ∧
    py_get d "ip" (PStr "0.0.0.0") = inr ip ∧
    py_get d "port" (PInt 0) = inr port ∧
    py_get d "options" (PDict []) = inr o ∧ keyword_arguments o = inr opts ∧
    constructor_raises c honeypot_id ip port opts = None.

(** Sequences of creations and removals. *)
Inductive op : Type :=
| Create (honeypot_id honeypot_type ip port : pyval)
         (options : list (string * pyval))
| Remove (in_loop : bool) (honeypot_id : pyval).

Definition step (m : state) (o : op) : state :=
  match o with
  | Create i t a p o => snd (create_honeypot i t a p o m)
  | Remove l i => snd (remove_honeypot l i m)
  end.

Definition run (ops : list op) (m : state) : state := fold_left step ops m.

End Manager.

(** ** A concrete environment

    ASCII upper-casing, a YAML dumper that writes block style with sorted
    keys and a loader that parses such documents, constructors that accept
    everything, and services that start and stop unless their port is
    [0]. *)

Definition upper_ascii (c : ascii) : ascii :=
  let n := nat_of_ascii c in
  if (Nat.leb 97 n && Nat.leb n 122)%bool then ascii_of_nat (n - 32) else c.

Fixpoint ascii_upper (s : string) : string :=
  match s with
  | EmptyString => EmptyString
  | String c rest => String (upper_ascii c) (ascii_upper rest)
  end.

(** *** Writing YAML *)

Definition is_digit (c : ascii) : bool :=
  let n := nat_of_ascii c in (Nat.leb 48 n && Nat.leb n 57)%bool.

Definition is_letter (c : ascii) : bool :=
  let n := nat_of_ascii c in
  ((Nat.leb 65 n && Nat.leb n 90) || (Nat.leb 97 n && Nat.leb n 122))%bool.

Fixpoint string_forall (p : ascii → bool) (s : string) : bool :=
  match s with
  | EmptyString => true
  | String c rest => p c && string_forall p rest
  end.

Fixpoint count_char (x : ascii) (s : string) : nat :=
  match s with
  | EmptyString => 0
  | String c rest => (if Ascii.eqb c x then 1 else 0) + count_char x rest
  end.

Fixpoint last_char (s : string) : option ascii :=
  match s with
  | EmptyString => None
  | String c EmptyString => Some c
  | String _ rest => last_char rest
  end.

Definition one_of (chars : string) (c : ascii) : bool :=
  negb (Nat.eqb (count_char c chars) 0).

(** Words that a plain scalar resolves to something else than a string. *)
Definition reserved_words : list string :=
  ["null"; "Null"; "NULL"; "~";
   "true"; "True"; "TRUE"; "false"; "False"; "FALSE";
   "yes"; "Yes"; "YES"; "no"; "No"; "NO";
   "on"; "On"; "ON"; "off"; "Off"; "OFF"; "y"; "Y"; "n"; "N"].

(** A text made of the characters of numbers with at most one point: an
    integer, a float, a date or a time. *)
Definition looks_numeric (s : string) : bool :=
  match s with
  | EmptyString => false
  | String c _ =>
      (is_digit c || one_of "+-." c)
      && string_forall (λ x, is_digit x || one_of "+-._:eExXoObBaAcCdDfFTZ " x) s
      && Nat.leb (count_char "." s) 1
  end.

(** A string that can be written as it is, without quotes. *)
Definition plain (s : string) : bool :=
  match s with
  | EmptyString => false
  | String c _ =>
      (is_letter c || is_digit c || one_of "_./(" c)
      && string_forall (λ x, is_letter x || is_digit x || one_of "_./()+- " x) s
      && negb (bool_decide (last_char s = Some " "%char))
      && negb (looks_numeric s)
      && negb (bool_decide (s ∈ reserved_words))
  end.

(** Inside single quotes a quote is written twice. *)
Fixpoint double_quotes (s : string) : string :=
  match s with
  | EmptyString => EmptyString
  | String c rest =>
      if Ascii.eqb c "'" then String c (String c (double_quotes rest))
      else String c (double_quotes rest)
  end.

Definition print_str (s : string) : string :=
  if plain s then s
  else String.append "'" (String.append (double_quotes s) "'").

(** A dumped node: a scalar on one line, or a block of lines, each with
    its indentation relative to the block. *)
Inductive rendered : Type :=
| Inline (text : string)
| Block (is_sequence : bool) (lines : list (nat * string)).

Definition shift (n : nat) (lines : list (nat * string)) : list (nat * string) :=
  map (λ l, ((n + fst l)%nat, snd l)) lines.

Definition sequence_item (r : rendered) : list (nat * string) :=
  match r with
  | Inline text => [(0%nat, String.append "- " text)]
  | Block _ [] => []
  | Block _ ((_, first) :: rest) =>
      (0%nat, String.append "- " first) :: shift 2 rest
  end.

Definition mapping_entry (kr : string * rendered) : list (nat * string) :=
  match snd kr with
  | Inline text =>
      [(0%nat, String.append (print_str (fst kr)) (String.append ": " text))]
  | Block is_sequence lines =>
      (0%nat, String.append (print_str (fst kr)) ":")
        :: shift (if is_sequence then 0 else 2) lines
  end.

(** The entries of a mapping are written in the order of their keys. *)
Fixpoint insert_sorted {A} (kx : string * A) (l : list (string * A))
  : list (string * A) :=
  match l with
  | [] => [kx]
  | ky :: rest =>
      if String.leb (fst kx) (fst ky) then kx :: l
      else ky :: insert_sorted kx rest
  end.

Definition sort_keys {A} (l : list (string * A)) : list (string * A) :=
  foldr insert_sorted [] l.

(** An item of a sequence starts behind its dash; the value of a key
    follows it on the line when it is a scalar and starts below it
    otherwise, a mapping two columns further in and a sequence in the
    column of the key. *)
Fixpoint render (v : pyval) : rendered :=
  match v with
  | PNone => Inline "null"
  | PInt n => Inline (pretty n)
  | PStr s => Inline (print_str s)
  | PList [] => Inline "[]"
  | PList l => Block true (concat (map (λ x, sequence_item (render x)) l))
  | PDict [] => Inline "{}"
  | PDict d =>
      Block false
        (concat (map mapping_entry
                   (sort_keys (map (λ kv, let (k, x) := kv : string * pyval in
                                          (k, render x)) d))))
  end.

Definition newline : string := String (ascii_of_nat 10) EmptyString.

Fixpoint spaces (n : nat) : string :=
  match n with
  | O => EmptyString
  | S k => String " " (spaces k)
  end.

Definition print_lines (lines : list (nat * string)) : string :=
  String.concat ""
    (map (λ l, String.append (spaces (fst l)) (String.append (snd l) newline))
       lines).

(** The text [yaml.dump(v, default_flow_style=False)] writes for [v]:
    block style, the keys of a mapping sorted. *)
Definition print_yaml (v : pyval) : string :=
  match render v with
  | Inline text =>
      match v with
      | PList _ | PDict _ => String.append text newline
      | _ => String.append text (String.append newline (String.append "..." newline))
      end
  | Block _ lines => print_lines lines
  end.

(** *** Reading YAML *)

Fixpoint split_lines (s : string) (current : string) : list string :=
  match s with
  | EmptyString => [current]
  | String c rest =>
      if Ascii.eqb c (ascii_of_nat 10) then current :: split_lines rest ""
      else split_lines rest (String.append current (String c EmptyString))
  end.

Fixpoint strip_indent (s : string) : nat * string :=
  match s with
  | String " " rest => let (n, t) := strip_indent rest in (S n, t)
  | _ => (O, s)
  end.

(** The text of a single-quoted scalar, up to its closing quote, and what
    follows it. *)
Fixpoint read_quoted (s : string) : option (string * string) :=
  match s with
  | EmptyString => None
  | String "'" (String "'" rest) =>
      match read_quoted rest with
      | Some (text, after) => Some (String "'" text, after)
      | None => None
      end
  | String "'" after => Some (EmptyString, after)
  | String c rest =>
      match read_quoted rest with
      | Some (text, after) => Some (String c text, after)
      | None => None
      end
  end.

(** The integer a decimal numeral stands for. *)
Definition is_integer (s : string) : option Z :=
  let digits (t : string) : option Z :=
    match t with
    | EmptyString => None
    | "0" => Some 0
    | String "0" _ => None
    | _ =>
        if string_forall is_digit t
        then Some (Z.of_nat
                     ((fix value (t : string) (acc : nat) : nat :=
                         match t with
                         | EmptyString => acc
                         | String c rest =>
                             value rest (10 * acc + (nat_of_ascii c - 48))%nat
                         end) t 0%nat))
        else None
    end in
  match s with
  | String "-" t => (λ z, - z) <$> digits t
  | String "+" t => digits t
  | _ => digits s
  end.

(** The value of a scalar as [safe_load] resolves it.  Booleans and
    floats have no counterpart in [pyval], and flow collections other than
    the empty ones are not read. *)
Definition read_scalar (text : string) : option pyval :=
  match text with
  | EmptyString => Some PNone
  | String "'" rest =>
      match read_quoted rest with
      | Some (s, EmptyString) => Some (PStr s)
      | _ => None
      end
  | _ =>
      if bool_decide (text ∈ ["null"; "Null"; "NULL"; "~"]) then Some PNone
      else if String.eqb text "[]" then Some (PList [])
      else if String.eqb text "{}" then Some (PDict [])
      else match is_integer text with
           | Some z => Some (PInt z)
           | None => if plain text then Some (PStr text) else None
           end
  end.

Inductive token : Type :=
| TDash (indent : nat)
| TEntry (indent : nat) (key : string) (value : option string)
| TScalar (indent : nat) (text : string).

(** Splits [key: value] at the first colon that is followed by a space or
    ends the line. *)
Fixpoint split_entry (s : string) (key : string) : option (string * option string) :=
  match s with
  | EmptyString => None
  | String ":" EmptyString => Some (key, None)
  | String ":" (String " " value) => Some (key, Some value)
  | String c rest => split_entry rest (String.append key (String c EmptyString))
  end.

Definition read_entry (s : string) : option (string * option string) :=
  match s with
  | String "'" rest =>
      match read_quoted rest with
      | Some (key, ":") => Some (key, None)
      | Some (key, String ":" (String " " value)) => Some (key, Some value)
      | _ => None
      end
  | _ =>
      match split_entry s "" with
      | Some (key, value) => if plain key then Some (key, value) else None
      | None => None
      end
  end.

(** The tokens of one line: the dashes that open sequence items, then an
    entry of a mapping or a scalar. *)
Fixpoint tokens_of_line (fuel : nat) (indent : nat) (s : string) : list token :=
  match fuel with
  | O => []
  | S fuel' =>
      match s with
      | "-" => [TDash indent]
      | String "-" (String " " rest) =>
          let (n, t) := strip_indent rest in
          TDash indent :: tokens_of_line fuel' (indent + 2 + n) t
      | _ =>
          match read_entry s with
          | Some (key, value) => [TEntry indent key value]
          | None => [TScalar indent s]
          end
      end
  end.

Definition tokens (text : string) : list token :=
  concat
    (map (λ line,
          let (n, t) := strip_indent line in
          if String.eqb t "" then []
          else if (String.eqb t "---" || String.eqb t "...")%bool then []
          else tokens_of_line (S (String.length t)) n t)
       (split_lines text "")).

Definition indent_of (t : token) : nat :=
  match t with
  | TDash n | TEntry n _ _ | TScalar n _ => n
  end.

(** A node whose first token is indented by [least] columns or more; the
    items of the sequence and the entries of the mapping that start in
    column [at_indent].  A sequence that is the value of a key may start
    in the column of the key.  Of two entries with the same key the later
    one gives the value. *)
Fixpoint parse_node (fuel : nat) (least : nat) (ts : list token)
  : option (pyval * list token) :=
  match fuel with
  | O => None
  | S fuel' =>
      match ts with
      | [] => None
      | TScalar n text :: rest =>
          if Nat.leb least n
          then v ← read_scalar text; Some (v, rest)
          else None
      | TDash n :: _ =>
          if Nat.leb least n
          then '(items, rest) ← parse_items fuel' n ts; Some (PList items, rest)
          else None
      | TEntry n _ _ :: _ =>
          if Nat.leb least n
          then '(entries, rest) ← parse_entries fuel' n ts;
               Some (PDict (foldl (λ d kv, dict_store d (fst kv) (snd kv))
                              [] entries), rest)
          else None
      end
  end
with parse_items (fuel : nat) (at_indent : nat) (ts : list token)
  : option (list pyval * list token) :=
  match fuel with
  | O => None
  | S fuel' =>
      match ts with
      | TDash n :: rest =>
          if Nat.eqb n at_indent then
            '(item, rest1) ←
              match rest with
              | t :: _ =>
                  if Nat.ltb at_indent (indent_of t)
                  then parse_node fuel' (S at_indent) rest
                  else Some (PNone, rest)
              | [] => Some (PNone, rest)
              end;
            '(others, rest2) ← parse_items fuel' at_indent rest1;
            Some (item :: others, rest2)
          else Some ([], ts)
      | _ => Some ([], ts)
      end
  end
with parse_entries (fuel : nat) (at_indent : nat) (ts : list token)
  : option (list (string * pyval) * list token) :=
  match fuel with
  | O => None
  | S fuel' =>
      match ts with
      | TEntry n key value :: rest =>
          if Nat.eqb n at_indent then
            '(v, rest1) ←
              match value with
              | Some text => v ← read_scalar text; Some (v, rest)
              | None =>
                  match rest with
                  | TDash k :: _ =>
                      if Nat.leb at_indent k
                      then parse_node fuel' at_indent rest
                      else Some (PNone, rest)
                  | t :: _ =>
                      if Nat.ltb at_indent (indent_of t)
                      then parse_node fuel' (S at_indent) rest
                      else Some (PNone, rest)
                  | [] => Some (PNone, rest)
                  end
              end;
            '(others, rest2) ← parse_entries fuel' at_indent rest1;
            Some ((key, v) :: others, rest2)
          else Some ([], ts)
      | _ => Some ([], ts)
      end
  end.

(** [yaml.safe_load] on block-style documents, as [print_yaml] writes
    them; a text without a node is the empty document. *)
Definition read_yaml (text : string) : exn + pyval :=
  match tokens text with
  | [] => inr PNone
  | ts =>
      match parse_node (3 * length ts + 3) 0 ts with
      | Some (v, []) => inr v
      | _ => inl YAMLError
      end
  end.

Definition describe (h : Honeypot) : pyval :=
  PDict [("id", hp_id h);
         ("ip", hp_ip h);
         ("port", hp_port h);
         ("status", PStr (match status h with
                          | Active => "Active"
                          | Inactive => "Inactive"
                          end))].

Definition sample_env : Env := {|
  upper := ascii_upper;
  yaml_safe_load := read_yaml;
  yaml_dump := print_yaml;
  constructor_raises := λ _ _ _ _ _, None;
  start_raises := λ h,
    match hp_port h with
    | PInt 0 => Some (ServiceError "cannot bind")
    | _ => None
    end;
  stop_raises := λ _, None;
  get_status := describe
|}.

(** Concrete states, all in [sample_env]. *)

(** A manager constructed without a source, in a process that sees no file. *)
Definition fresh : state := @init sample_env None ∅.

(** The fresh manager after one [start_all]. *)
Definition started_once : state := snd (@start_all sample_env fresh).

(** A disk whose only file is not a YAML document. *)
Definition broken_disk : gmap string node :=
  {["decoys.yaml" := File "honeypots: ["]}.

(** The fresh manager with two more instances; the port of the first one
    makes its start fail. *)
Definition two_more : state :=
  snd (@create_honeypot sample_env (PStr "good") (PStr "web") (PStr "0.0.0.0")
         (PInt 8081) []
         (snd (@create_honeypot sample_env (PStr "bad") (PStr "ssh")
                 (PStr "0.0.0.0") (PInt 0) [] fresh))).

(** A disk whose only file is an empty document, which loads as [None],
    and the manager constructed from it. *)
Definition empty_document_disk : gmap string node :=
  {["empty.yaml" := File "null"]}.

Definition after_empty_document : state :=
  @init sample_env (Some "empty.yaml") empty_document_disk.

(** The fresh manager after the creation of one more instance. *)
Definition one_more : state :=
  snd (@create_honeypot sample_env (PStr "x") (PStr "Ssh") (PStr "0.0.0.0")
         (PInt 2200) [] fresh).

(** A manager whose first definition has no id. *)
Definition nameless_first : state :=
  set_config
    (PDict [("honeypots",
             PList [PDict [("type", PStr "SSH")];
                    PDict [("id", PStr "late"); ("type", PStr "SSH")]])])
    fresh.

(** A manager whose definitions give an id and a type only. *)
Definition bare_definitions : state :=
  set_config
    (PDict [("honeypots",
             PList [PDict [("id", PStr "plain"); ("type", PStr "web")]])])
    fresh.

(** A disk whose only file is empty, and the manager constructed from
    it: the empty document loads as [None]. *)
Definition empty_file_disk : gmap string node :=
  {["decoys.yaml" := File ""]}.

Definition after_empty_file : state :=
  @init sample_env (Some "decoys.yaml") empty_file_disk.

(** The default configuration as the loader reads it from the document
    the dumper writes for it: the keys of every record are sorted. *)
Definition default_config_loaded : pyval :=
  PDict [("honeypots", PList [
    PDict [("id", PStr "ssh-honeypot-1");
           ("ip", PStr "0.0.0.0");
           ("options",
            PDict [("banner", PStr "SSH-2.0-OpenSSH_8.2p1 Ubuntu-4ubuntu0.5")]);
           ("port", PInt 2222);
           ("type", PStr "SSH")];
    PDict [("id", PStr "web-honeypot-1");
           ("ip", PStr "0.0.0.0");
           ("options",
            PDict [("server_type", PStr "Apache/2.4.41 (Ubuntu)")]);
           ("port", PInt 8080);
           ("type", PStr "Web")]])].


(** A manager with one definition, whose options name the port a second
    time. *)
Definition port_given_twice : state :=
  set_config
    (PDict [("honeypots",
             PList [PDict [("id", PStr "twice"); ("type", PStr "ssh");
                           ("port", PInt 2200);
                           ("options", PDict [("port", PInt 2201)])]])])
    fresh.

(** ** The honeypot table of the dashboard
    (frontend/src/components/HoneypotDashboard.js)

    A row is an object of the list the component keeps; ids and statuses
    are strings, and the other fields are carried along unread. *)
Module Dashboard.
Section Rows.
Context {A : Type}.

Record row : Type := mkRow {
  row_id : string;
  row_status : string;
  row_fields : A
}.

(** The updater given to [setHoneypots]:
    [prev.map(hp => hp.id === id ? {...hp, status: ...} : hp)]. *)
Definition toggleHoneypotStatus (id : string) (prev : list row) : list row :=
  map (λ hp,
       if String.eqb (row_id hp) id
       then mkRow (row_id hp)
              (if String.eqb (row_status hp) "Active" then "Inactive" else "Active")
              (row_fields hp)
       else hp)
      prev.

(** [honeypots.length > 0 ? honeypots : mockHoneypots] *)
Definition displayHoneypots (honeypots mockHoneypots : list row) : list row :=
  if Nat.ltb 0 (length honeypots) then honeypots else mockHoneypots.

(** [displayHoneypots.filter(hp => hp.status === 'Active').length] *)
Definition activeHoneypots (displayed : list row) : nat :=
  length (filter (λ hp, row_status hp = "Active") displayed).

End Rows.
Arguments row : clear implicits.
End Dashboard.

(** * Properties *)

(** Unfolds the monad: a computation becomes a case analysis on the
    results of its steps. *)
Ltac run_M :=
  unfold bind, ret, raise, gets, modify, lift, try_except, logger in *;
  cbn [fst snd] in *.

(** Projections of an updated state. *)
Ltac simpl_state :=
  cbn [honeypots config running log disk
       set_honeypots set_config set_running add_log add_logs set_disk
       fst snd] in *.

Section Properties.
Context `{Env}.

Lemma to_key_of_key k : to_key (of_key k) = Some k.
Proof. by destruct k. Qed.

Lemma eq_key_true v k : eq_key v k = true ↔ to_key v = Some k.
Proof. unfold eq_key. apply bool_decide_eq_true. Qed.

Lemma eq_key_other v k k' : to_key v = Some k → k ≠ k' → eq_key v k' = false.
Proof.
  intros Hv Hne. unfold eq_key. apply bool_decide_eq_false.
  rewrite Hv. congruence.
Qed.

Lemma dict_lookup_store d key v : dict_lookup (dict_store d key v) key = Some v.
Proof.
  induction d as [|[k w] d IH]; cbn.
  - by rewrite String.eqb_refl.
  - destruct (String.eqb k key) eqn:E; cbn; by rewrite E.
Qed.

(** The steps of [create_honeypot] after the registration change the
    configuration and the log only. *)
Lemma append_definition_honeypots d m :
  honeypots (snd (append_definition d m)) = honeypots m.
Proof.
  unfold append_definition. run_M.
  destruct (config m) as [| | | |entries]; try done.
  destruct (dict_lookup entries "honeypots") as [[]|]; done.
Qed.

Lemma create_honeypot_existing m honeypot_id k h ty ip port opts :
  to_key honeypot_id = Some k →
  honeypots m !! k = Some h →
  create_honeypot honeypot_id ty ip port opts m =
    (inr (Some h),
     add_log (mkLog WARNING [Lit "Honeypot with ID "; Fmt honeypot_id;
                             Lit " already exists"]) m).
Proof.
  intros Hk Hh. unfold create_honeypot. rewrite Hk. run_M. by rewrite Hh.
Qed.

(** Whatever [create_honeypot] returns is registered under the id. *)
Lemma create_honeypot_registered m honeypot_id ty ip port opts h m1 :
  create_honeypot honeypot_id ty ip port opts m = (inr (Some h), m1) →
  ∃ k, to_key honeypot_id = Some k ∧ honeypots m1 !! k = Some h.
Proof.
  unfold create_honeypot.
  destruct (to_key honeypot_id) as [k|] eqn:Hk; [|by run_M].
  intros Hc. exists k. split; [done|]. revert Hc. run_M.
  destruct (honeypots m !! k) as [h0|] eqn:Hreg.
  { intros [= <- <-]. done. }
  destruct (py_upper ty) as [e|tag]; [by intros [= ]|].
  destruct (class_of_tag tag) as [c|]; [|by intros [= ]].
  destruct (new_honeypot c honeypot_id ip port opts) as [e|h1]; [by intros [= ]|].
  unfold configured. run_M. cbn [config set_honeypots add_log].
  destruct (py_get (config m) "honeypots" (PList [])) as [e|defs]; [by intros [= ]|].
  destruct (py_iter defs) as [e|items]; [by intros [= ]|].
  destruct (any_has_id k items) as [e|[]]; [by intros [= ]| |].
  - intros [= <- <-]. cbn. apply lookup_insert_eq.
  - match goal with |- context [append_definition ?d ?s] =>
      pose proof (append_definition_honeypots d s) as Hreg';
      destruct (append_definition d s) as [[e|[]] m'] end;
      [by intros [= ]|].
    intros [= <- <-]. cbn in Hreg'. rewrite Hreg'. apply lookup_insert_eq.
Qed.

(** C1. Calling [create_honeypot] a second time with an id whose first
    call returned an instance [h] returns [h] itself; the state after the
    second call differs from the state before it by one WARNING record
    only, so the registry still maps the id to [h], nothing is
    overwritten and no field of [h] has changed. *)
Theorem create_honeypot_twice m honeypot_id ty ip port opts
    ty' ip' port' opts' h m1 :
  create_honeypot honeypot_id ty ip port opts m = (inr (Some h), m1) →
  ∃ k, to_key honeypot_id = Some k ∧
       honeypots m1 !! k = Some h ∧
       create_honeypot honeypot_id ty' ip' port' opts' m1 =
         (inr (Some h),
          add_log (mkLog WARNING [Lit "Honeypot with ID "; Fmt honeypot_id;
                                  Lit " already exists"]) m1) ∧
       honeypots (snd (create_honeypot honeypot_id ty' ip' port' opts' m1))
         = honeypots m1.
Proof.
  intros Hc. destruct (create_honeypot_registered _ _ _ _ _ _ _ _ Hc) as (k & Hk & Hh).
  exists k. split; [done|]. split; [done|].
  rewrite (create_honeypot_existing m1 honeypot_id k h) by done. done.
Qed.

Lemma any_has_id_total k items :
  Forall (λ d, ∃ v, py_getitem d "id" = inr v) items →
  any_has_id k items =
    inr (bool_decide (filter (λ d, has_id k d = true) items ≠ [])).
Proof.
  induction 1 as [|d items [v Hv] _ IH]; [done|].
  assert (has_id k d = eq_key v k) as Hd by (unfold has_id; by rewrite Hv).
  cbn [any_has_id]. rewrite Hv, filter_cons.
  destruct (decide (has_id k d = true)) as [Ht|Hf].
  - rewrite <- Hd, Ht. done.
  - rewrite <- Hd. by destruct (has_id k d).
Qed.

(** Creation under a free id with a tag that selects the class [c]: the
    new instance is registered whatever happens to the configuration
    afterwards, and it is returned when the configuration has the
    persisted layout. *)
Lemma create_honeypot_selected m k ty ip port opts c :
  honeypots m !! k = None →
  class_of_tag (upper ty) = Some c →
  constructor_raises c (of_key k) ip port opts = None →
  let called := create_honeypot (of_key k) (PStr ty) ip port opts m in
  let h := mkHoneypot c (of_key k) ip port opts Inactive in
  honeypots (snd called) = <[k := h]> (honeypots m) ∧
  (well_formed (config m) → fst called = inr (Some h)).
Proof.
  intros Hfresh Hc Hctor called h. subst called. unfold create_honeypot.
  rewrite to_key_of_key. run_M. rewrite Hfresh. cbn [py_upper]. rewrite Hc.
  unfold new_honeypot. rewrite Hctor. fold h.
  unfold configured. run_M. simpl_state.
  split.
  - destruct (py_get (config m) "honeypots" (PList [])) as [e|defs]; [done|].
    destruct (py_iter defs) as [e|items]; [done|].
    destruct (any_has_id k items) as [e|[]]; [done|done|].
    match goal with |- context [append_definition ?d ?s] =>
      pose proof (append_definition_honeypots d s) as Hreg;
      destruct (append_definition d s) as [[e|[]] m'] end; done.
  - intros (items & Hget & Hids & _). rewrite Hget. cbn [py_iter].
    rewrite (any_has_id_total k items Hids).
    case_bool_decide; [done|].
    unfold append_definition. run_M. simpl_state.
    destruct (config m) as [| | | |entries]; try done.
    cbn in Hget. destruct (dict_lookup entries "honeypots") as [[]|]; done.
Qed.

(** C10. For an id that is not registered, the tag is compared after
    upper-casing.  A tag whose upper-casing is ["SSH"] registers a new SSH
    service and one whose upper-casing is ["WEB"] a new Web service, built
    from the given id, address, port and options and returned to the
    caller when the configuration has the persisted layout.  Every other
    tag is rejected: the result is [None], an ERROR is logged, and the
    registry and the configuration are unchanged. *)
Theorem type_tag_dispatch m k ty ip port opts :
  honeypots m !! k = None →
  let called := create_honeypot (of_key k) (PStr ty) ip port opts m in
  (upper ty = "SSH" →
   constructor_raises SSHHoneypot (of_key k) ip port opts = None →
   let h := mkHoneypot SSHHoneypot (of_key k) ip port opts Inactive in
   honeypots (snd called) = <[k := h]> (honeypots m) ∧
   (well_formed (config m) → fst called = inr (Some h))) ∧
  (upper ty = "WEB" →
   constructor_raises WebHoneypot (of_key k) ip port opts = None →
   let h := mkHoneypot WebHoneypot (of_key k) ip port opts Inactive in
   honeypots (snd called) = <[k := h]> (honeypots m) ∧
   (well_formed (config m) → fst called = inr (Some h))) ∧
  (upper ty ≠ "SSH" → upper ty ≠ "WEB" →
   called = (inr None,
             add_log (mkLog ERROR [Lit "Unsupported honeypot type: ";
                                   Fmt (PStr ty)]) m)).
Proof.
  intros Hfresh called. split; [|split].
  - intros Hs Hctor. apply create_honeypot_selected; [done| |done].
    unfold class_of_tag. by rewrite Hs.
  - intros Hw Hctor. apply create_honeypot_selected; [done| |done].
    unfold class_of_tag. by rewrite Hw.
  - intros Hs Hw. subst called. unfold create_honeypot.
    rewrite to_key_of_key. run_M. rewrite Hfresh. cbn [py_upper].
    assert (class_of_tag (upper ty) = None) as ->; [|done].
    unfold class_of_tag.
    destruct (String.eqb_spec (upper ty) "SSH"); [done|].
    destruct (String.eqb_spec (upper ty) "WEB"); done.
Qed.

(** C5. [start_honeypot] on a hashable id: [True] and no change when the
    instance is already [Active]; [False] and a WARNING when the id is
    not registered; otherwise the service is started, and the result is
    [True] with the instance [Active] when the start succeeds, [False]
    with an ERROR record and the instance as it was when the start raises.
    In every case the call returns: no exception of the start reaches the
    caller. *)
Theorem start_honeypot_cases m k :
  let called := start_honeypot (of_key k) m in
  (∀ h, honeypots m !! k = Some h → status h = Active →
        called = (inr true, m)) ∧
  (honeypots m !! k = None →
   called = (inr false,
             add_log (mkLog WARNING [Lit "Honeypot with ID "; Fmt (of_key k);
                                     Lit " does not exist"]) m)) ∧
  (∀ h, honeypots m !! k = Some h → status h ≠ Active →
        start_raises h = None →
        called = (inr true,
                  add_log (mkLog INFO [Lit "Started honeypot "; Fmt (of_key k)])
                    (set_honeypots (insert k (set_status Active h)) m))) ∧
  (∀ h e, honeypots m !! k = Some h → status h ≠ Active →
          start_raises h = Some e →
          called = (inr false,
                    add_log (mkLog ERROR [Lit "Failed to start honeypot ";
                                          Fmt (of_key k); Lit ": "; FmtExn e]) m)) ∧
  (∃ b m', called = (inr b, m')).
Proof.
  intros called. subst called. unfold start_honeypot, get_honeypot, write_back.
  rewrite to_key_of_key. run_M. unfold hp_start.
  destruct (honeypots m !! k) as [h|] eqn:Hreg.
  - destruct (decide (status h = Active)) as [Ha|Hna].
    + rewrite bool_decide_eq_false_2 by (by intros ?).
      repeat split; intros; simplify_eq; try done; eauto.
    + rewrite bool_decide_eq_true_2 by done.
      destruct (start_raises h) as [e|] eqn:Hs; cbn;
        repeat split; intros; simplify_eq; try done; eauto.
  - repeat split; intros; simplify_eq; try done; eauto.
Qed.

Lemma definitions_config m m' : config m = config m' → definitions m = definitions m'.
Proof.
  intros Hc. unfold definitions, configured. run_M. rewrite Hc.
  by destruct (py_get (config m') "honeypots" (PList [])).
Qed.

Lemma definitions_get m items :
  py_get (config m) "honeypots" (PList []) = inr (PList items) →
  definitions m = items.
Proof. intros Hget. unfold definitions, configured. run_M. by rewrite Hget. Qed.

(** *** Loading and saving *)

Lemma load_config_parsed m path text doc :
  disk m !! path = Some (File text) →
  yaml_safe_load text = inr doc →
  load_config path m =
    (inr tt,
     add_log (mkLog INFO [Lit "Configuration loaded from "; Fmt (PStr path)])
       (set_config doc m)).
Proof.
  intros Hfile Hdoc. unfold load_config, open_read. run_M.
  by rewrite Hfile, Hdoc.
Qed.

Lemma load_config_failed m path e :
  fst (open_read path m) = inl e ∨
  (∃ text, disk m !! path = Some (File text) ∧ yaml_safe_load text = inl e) →
  load_config path m =
    (inr tt,
     set_config (PDict [("honeypots", PList [])])
       (add_log (mkLog ERROR [Lit "Failed to load configuration: "; FmtExn e]) m)).
Proof.
  unfold load_config, open_read. run_M.
  intros [Hopen|(text & Hfile & Hdoc)].
  - destruct (disk m !! path) as [[]|]; simplify_eq/=; done.
  - by rewrite Hfile, Hdoc.
Qed.

(** C6. When the document stored at [path] is ill-formed, that is when
    [yaml.safe_load] raises on its text, [load_config] returns normally,
    logs an ERROR and leaves [{'honeypots': []}] as the configuration:
    the definition set is empty, whatever it was before, and nothing of
    the document is applied. *)
Theorem load_config_malformed m path text e :
  disk m !! path = Some (File text) →
  yaml_safe_load text = inl e →
  load_config path m =
    (inr tt,
     set_config (PDict [("honeypots", PList [])])
       (add_log (mkLog ERROR [Lit "Failed to load configuration: "; FmtExn e]) m)) ∧
  definitions (snd (load_config path m)) = [].
Proof.
  intros Hfile Hdoc.
  rewrite (load_config_failed m path e) by (right; eauto). done.
Qed.

(** C7, as the code has it. A manager constructed without a source, or
    with a source that does not exist, holds the built-in default
    configuration; a manager constructed from an existing source whose
    text cannot be parsed holds the empty definition set. *)
Theorem init_definition_set (config_file : option string) d :
  (config_file = None ∨ (∃ path, config_file = Some path ∧ d !! path = None) →
   config (init config_file d) = default_config) ∧
  (∀ path text e,
     config_file = Some path → path ≠ "" →
     d !! path = Some (File text) → yaml_safe_load text = inl e →
     config (init config_file d) = PDict [("honeypots", PList [])] ∧
     definitions (init config_file d) = []).
Proof.
  split.
  - intros [->|(path & -> & Hnone)]; [done|].
    unfold init, path_exists. rewrite Hnone.
    rewrite bool_decide_eq_false_2 by (by intros [? ?]).
    by rewrite andb_false_r.
  - intros path text e -> Hpath Hfile Hdoc.
    unfold init, path_exists. rewrite Hfile.
    rewrite bool_decide_eq_true_2 by eauto.
    assert (truthy (PStr path) = true) as ->.
    { cbn. destruct (String.eqb_spec path ""); done. }
    cbn [andb].
    rewrite (load_config_failed _ path e) by (right; eauto). done.
Qed.

(** What [save_config] does: it never raises; the file is written when
    the destination can be opened, and an ERROR is logged otherwise. *)
Lemma save_config_run m path :
  save_config path m =
    (inr tt,
     if writable (disk m) path
     then add_log (mkLog INFO [Lit "Configuration saved to "; Fmt (PStr path)])
            (set_disk (<[path := File (yaml_dump (config m))]> (disk m)) m)
     else add_log (mkLog ERROR [Lit "Failed to save configuration: ";
                                FmtExn OSError]) m).
Proof.
  unfold save_config, open_write. run_M. by destruct (writable (disk m) path).
Qed.

(** Equal mappings hold equal values under every key. *)
Lemma py_equal_field e v key :
  py_equal (PDict e) v = true →
  ∃ e', v = PDict e' ∧
        match dict_lookup e key, dict_lookup e' key with
        | Some x, Some y => py_equal x y = true
        | None, None => True
        | _, _ => False
        end.
Proof.
  destruct v as [| | | |e']; try done. cbn [py_equal].
  intros [Hsub Hkeys]%andb_true_iff. exists e'. split; [done|].
  destruct (dict_lookup e key) as [x|] eqn:Hx.
  - clear Hkeys. induction e as [|[k x'] e IH]; [done|].
    cbn [dict_lookup] in Hx.
    destruct (dict_lookup e' k) as [w|] eqn:Hw; [|done].
    apply andb_true_iff in Hsub as [Hhere Hrest].
    destruct (String.eqb_spec k key) as [->|Hne].
    + simplify_eq. by rewrite Hw.
    + by apply IH.
  - clear Hsub. destruct (dict_lookup e' key) as [y|] eqn:Hy; [|done].
    induction e' as [|[k y'] e' IH]; [done|].
    cbn [dict_lookup forallb fst] in Hy, Hkeys.
    apply andb_true_iff in Hkeys as [Hhere Hrest].
    destruct (String.eqb_spec k key) as [->|Hne].
    + apply bool_decide_eq_true in Hhere. rewrite Hx in Hhere.
      by destruct Hhere.
    + by apply IH.
Qed.

(** Equal lists have equal items at the same positions. *)
Lemma py_equal_items l v :
  py_equal (PList l) v = true →
  ∃ l', v = PList l' ∧ Forall2 (λ x y, py_equal x y = true) l l'.
Proof.
  destruct v as [| | |l'|]; try done. cbn [py_equal].
  intros Heq. exists l'. split; [done|].
  revert l' Heq. induction l as [|x l IH]; intros [|y l'] Heq; try done.
  apply andb_true_iff in Heq as [Hhere Hrest]. constructor; [done|by apply IH].
Qed.

Lemma py_equal_same_fields d d' : py_equal d d' = true → same_fields d d'.
Proof.
  intros Heq. split; [done|]. intros key.
  destruct d as [| | | |e].
  1-4: by destruct d'.
  destruct (py_equal_field e d' key Heq) as (e' & -> & Hkey). done.
Qed.

(** Equal configurations hold equal definitions, one for one. *)
Lemma py_equal_definitions c c' items m' :
  py_equal c c' = true →
  py_get c "honeypots" (PList []) = inr (PList items) →
  config m' = c' →
  Forall2 same_fields items (definitions m').
Proof.
  intros Heq Hget Hcfg. destruct c as [| | | |e]; try done.
  destruct (py_equal_field e c' "honeypots" Heq) as (e' & -> & Hkey).
  cbn [py_get] in Hget.
  assert (∃ items', definitions m' = items' ∧
                    Forall2 (λ x y, py_equal x y = true) items items')
    as (items' & -> & Hall).
  { destruct (dict_lookup e "honeypots") as [x|] eqn:Hx;
      destruct (dict_lookup e' "honeypots") as [y|] eqn:Hy; try done;
      cbn [default from_option id] in Hget; simplify_eq.
    - destruct (py_equal_items _ _ Hkey) as (items' & -> & Hall).
      exists items'. split; [|done].
      apply definitions_get. rewrite Hcfg. cbn [py_get]. by rewrite Hy.
    - exists []. split; [|constructor].
      apply definitions_get. rewrite Hcfg. cbn [py_get]. by rewrite Hy. }
  eapply Forall2_impl; [exact Hall|]. intros x y. apply py_equal_same_fields.
Qed.


(** Creation of an instance whose definition is already stored: the
    instance is registered and the configuration stays as it is. *)
Lemma create_honeypot_configured m honeypot_id k ty ip port opts c h items :
  to_key honeypot_id = Some k →
  honeypots m !! k = None →
  class_of_tag (upper ty) = Some c →
  new_honeypot c honeypot_id ip port opts = inr h →
  py_get (config m) "honeypots" (PList []) = inr (PList items) →
  any_has_id k items = inr true →
  create_honeypot honeypot_id (PStr ty) ip port opts m =
    (inr (Some h),
     add_log (mkLog INFO [Lit "Created "; Fmt (PStr ty);
                          Lit " honeypot with ID "; Fmt honeypot_id])
       (set_honeypots (insert k h) m)).
Proof.
  intros Hk Hfresh Hc Hnew Hget Hany. unfold create_honeypot, configured.
  rewrite Hk. run_M. rewrite Hfresh. cbn [py_upper]. rewrite Hc, Hnew.
  run_M. simpl_state. rewrite Hget. cbn [py_iter]. by rewrite Hany.
Qed.

(** *** Starting everything *)

Lemma configured_config m m' :
  config m = config m' → fst (configured m) = fst (configured m').
Proof.
  intros Hc. unfold configured. run_M. rewrite Hc.
  by destruct (py_get (config m') "honeypots" (PList [])).
Qed.

Lemma any_has_id_found k (pre : list pyval) h rest :
  Forall (λ d, ∃ v, py_getitem d "id" = inr v) pre →
  has_id k h = true →
  any_has_id k (pre ++ h :: rest) = inr true.
Proof.
  intros Hpre Hh. induction Hpre as [|d pre [v Hv] _ IH]; cbn [app any_has_id].
  - unfold has_id in Hh. destruct (py_getitem h "id") as [|v]; [done|].
    by rewrite Hh.
  - rewrite Hv, IH. by destruct (eq_key v k).
Qed.

(** [create_honeypot] for an id that has a definition leaves the
    configuration as it is. *)
Lemma create_honeypot_known_config m honeypot_id k ty ip port opts items :
  to_key honeypot_id = Some k →
  fst (configured m) = inr items →
  any_has_id k items = inr true →
  config (snd (create_honeypot honeypot_id ty ip port opts m)) = config m.
Proof.
  intros Hk Hitems Hany. unfold create_honeypot. rewrite Hk. run_M.
  destruct (honeypots m !! k); [done|].
  destruct (py_upper ty) as [e|tag]; [done|].
  destruct (class_of_tag tag) as [c|]; [|done].
  destruct (new_honeypot c honeypot_id ip port opts) as [e|h]; [done|].
  run_M.
  match goal with |- context [configured ?s] =>
    pose proof (configured_config s m eq_refl) as Hsame;
    assert (snd (configured s) = s) as Hstate
      by (unfold configured; run_M;
          by destruct (py_get (config s) "honeypots" (PList [])));
    destruct (configured s) as [r s'] end.
  cbn [fst snd] in Hsame, Hstate. subst s'. rewrite Hsame, Hitems, Hany. done.
Qed.

(** The first loop of [start_all] does not change the configuration, so
    the list it walks stays the one it started with. *)
Lemma for_each_ensure_created_config (pre rest : list pyval) m :
  fst (configured m) = inr (pre ++ rest) →
  Forall (λ d, ∃ v, py_getitem d "id" = inr v) pre →
  config (snd (for_each rest ensure_created m)) = config m.
Proof.
  revert pre m. induction rest as [|h rest IH]; intros pre m Hitems Hpre; [done|].
  cbn [for_each]. unfold bind at 1.
  assert (config (snd (ensure_created h m)) = config m ∧
          (∀ u, fst (ensure_created h m) = inr u →
                ∃ v, py_getitem h "id" = inr v)) as [Hcfg Hid].
  { unfold ensure_created. run_M.
    destruct (py_getitem h "id") as [e|v] eqn:Hv; [done|].
    destruct (to_key v) as [k|] eqn:Hk; [|done].
    split; [|by eauto].
    destruct (honeypots m !! k); [done|].
    destruct (py_getitem h "type") as [e|ty]; [done|].
    destruct (py_get h "ip" (PStr "0.0.0.0")) as [e|ip]; [done|].
    destruct (py_get h "port" (PInt 0)) as [e|port]; [done|].
    destruct (py_get h "options" (PDict [])) as [e|opts]; [done|].
    destruct (keyword_arguments opts) as [e|options]; [done|].
    pose proof (create_honeypot_known_config m v k ty ip port options
                  (pre ++ h :: rest) Hk Hitems) as Hkeep.
    destruct (create_honeypot v ty ip port options m) as [[e|r] m'];
      cbn [fst snd] in *; apply Hkeep; apply any_has_id_found; try done;
      unfold has_id; rewrite Hv; by apply eq_key_true. }
  destruct (ensure_created h m) as [[e|[]] m'] eqn:Hrun; cbn [fst snd] in *; [done|].
  rewrite <- Hcfg. apply (IH (pre ++ [h])).
  - rewrite (configured_config m' m Hcfg), Hitems. by rewrite <- app_assoc.
  - apply Forall_app. split; [done|]. apply Forall_singleton. by eapply Hid.
Qed.

Lemma create_configured_config m :
  config (snd (create_configured m)) = config m.
Proof.
  unfold create_configured. unfold bind.
  assert (snd (configured m) = m) as Hstate
    by (unfold configured; run_M;
        by destruct (py_get (config m) "honeypots" (PList []))).
  destruct (configured m) as [[e|items] m'] eqn:Hc; cbn [snd] in Hstate; subst m'.
  - done.
  - apply (for_each_ensure_created_config [] items); [by rewrite Hc|done].
Qed.

Lemma for_each_logger {A} (items : list A) lv (f : A → list fragment) m :
  for_each items (λ x, logger lv (f x)) m =
    (inr tt, add_logs (map (λ x, mkLog lv (f x)) items) m).
Proof.
  revert m. induction items as [|x items IH]; intros m; cbn [for_each map].
  - unfold ret, add_logs. rewrite app_nil_r. by destruct m.
  - unfold bind. unfold logger at 1. unfold modify. rewrite IH.
    unfold add_logs, add_log. simpl_state. by rewrite <- app_assoc.
Qed.

(** [start_all] raises what its first loop raises; when that loop
    returns, a task is made for every registered instance and the call
    returns what the tasks ended with. *)
Lemma start_all_run m :
  start_all m =
    match create_configured (set_running true m) with
    | (inl e, m1) => (inl e, m1)
    | (inr _, m1) =>
        let tasks := map_to_list (honeypots m1) in
        (inr (results_of hp_start tasks),
         set_honeypots (fmap (λ h, fst (run_task hp_start h)))
           (add_logs (announced tasks) m1))
    end.
Proof.
  unfold start_all, bind, modify. cbn [snd].
  destruct (create_configured (set_running true m)) as [[e|[]] m1]; [done|].
  unfold gets. rewrite for_each_logger. done.
Qed.

Lemma run_task_start h :
  run_task hp_start h =
    match start_raises h with
    | Some e => (h, Failed e)
    | None => (set_status Active h, Done)
    end.
Proof. unfold run_task, hp_start. by destruct (start_raises h). Qed.

(** Every registered instance gets a task, whatever its status. *)
Lemma start_all_launches_registered m m1 k h :
  create_configured (set_running true m) = (inr tt, m1) →
  honeypots m1 !! k = Some h →
  ∃ results, fst (start_all m) = inr results ∧
             (k, snd (run_task hp_start h)) ∈ results.
Proof.
  intros Hfirst Hreg. rewrite start_all_run, Hfirst. cbn.
  eexists; split; [done|]. unfold results_of.
  apply list_elem_of_fmap. exists (k, h). split; [done|].
  by apply elem_of_map_to_list.
Qed.

(** C4. When the first loop of [start_all] has returned, [start_all]
    returns normally whatever the starts do; it has one settled result per
    registered instance; and what happens to an instance depends on its
    own start only: if that start succeeds the instance is [Active] and
    its result is [Done], if it raises the exception is its result and
    the instance is as it was.  A failing start of one instance therefore
    neither stops the start of another nor reaches the caller. *)
Theorem start_all_isolates_failures m m1 :
  create_configured (set_running true m) = (inr tt, m1) →
  ∃ results m2,
    start_all m = (inr results, m2) ∧
    length results = size (honeypots m1) ∧
    ∀ k h, honeypots m1 !! k = Some h →
      (start_raises h = None →
       (k, Done) ∈ results ∧ honeypots m2 !! k = Some (set_status Active h)) ∧
      (∀ e, start_raises h = Some e →
       (k, Failed e) ∈ results ∧ honeypots m2 !! k = Some h).
Proof.
  intros Hfirst. rewrite start_all_run, Hfirst. cbn zeta.
  eexists _, _. split; [done|]. split.
  { unfold results_of. by rewrite length_map, length_map_to_list. }
  intros k h Hreg. simpl_state. rewrite lookup_fmap, Hreg.
  cbn [fmap option_fmap option_map].
  assert ((k, snd (run_task hp_start h))
            ∈ results_of hp_start (map_to_list (honeypots m1))) as Hin.
  { unfold results_of. apply list_elem_of_fmap. exists (k, h).
    split; [done|]. by apply elem_of_map_to_list. }
  rewrite run_task_start in Hin |- *.
  split.
  - intros Hs. rewrite Hs in Hin |- *. done.
  - intros e Hs. rewrite Hs in Hin |- *. done.
Qed.

(** C2, as the code has it. A manager constructed without a source holds
    exactly two definitions: ["ssh-honeypot-1"] of type ["SSH"] on port
    2222 and ["web-honeypot-1"] of type ["Web"] on port 8080, and no
    instance yet.  When the two constructors and the two starts succeed,
    [start_all] returns with exactly these two instances registered, both
    [Active], and the status query without an id has two entries. *)
Theorem fresh_manager_defaults d :
  let m := init None d in
  map (λ v, (py_getitem v "id", py_getitem v "type", py_getitem v "port"))
      (definitions m) =
    [(inr (PStr "ssh-honeypot-1"), inr (PStr "SSH"), inr (PInt 2222));
     (inr (PStr "web-honeypot-1"), inr (PStr "Web"), inr (PInt 8080))] ∧
  honeypots m = ∅ ∧
  (upper "SSH" = "SSH" → upper "Web" = "WEB" →
   new_honeypot SSHHoneypot (hp_id default_ssh) (hp_ip default_ssh)
     (hp_port default_ssh) (hp_options default_ssh) = inr default_ssh →
   new_honeypot WebHoneypot (hp_id default_web) (hp_ip default_web)
     (hp_port default_web) (hp_options default_web) = inr default_web →
   start_raises default_ssh = None → start_raises default_web = None →
   ∃ results m',
     start_all m = (inr results, m') ∧
     honeypots m' =
       <[KStr "web-honeypot-1" := set_status Active default_web]>
         (<[KStr "ssh-honeypot-1" := set_status Active default_ssh]> ∅) ∧
     ∃ snapshots,
       fst (get_honeypot_status PNone m') = inr (StatusOfAll snapshots) ∧
       size snapshots = 2%nat).
Proof.
  intros m. split; [done|]. split; [done|].
  intros Hssh Hweb Hnew_ssh Hnew_web Hstart_ssh Hstart_web.
  set (m0 := set_running true m).
  set (created_ssh :=
         add_log (mkLog INFO [Lit "Created "; Fmt (PStr "SSH");
                              Lit " honeypot with ID "; Fmt (PStr "ssh-honeypot-1")])
           (set_honeypots (insert (KStr "ssh-honeypot-1") default_ssh) m0)).
  set (created_web :=
         add_log (mkLog INFO [Lit "Created "; Fmt (PStr "Web");
                              Lit " honeypot with ID "; Fmt (PStr "web-honeypot-1")])
           (set_honeypots (insert (KStr "web-honeypot-1") default_web) created_ssh)).
  assert (create_configured m0 = (inr tt, created_web)) as Hfirst.
  { unfold create_configured, configured. run_M.
    change (py_get (config m0) "honeypots" (PList []))
      with (inr (B:=pyval) (A:=exn) (PList (definitions m))).
    cbn [py_iter].
    replace (definitions m)
      with (match default_config with
            | PDict [(_, PList l)] => l
            | _ => []
            end) by done.
    cbn [default_config for_each]. unfold bind.
    assert (∀ s c ty h items,
              let v := PDict [("id", hp_id h); ("type", PStr ty);
                              ("ip", hp_ip h); ("port", hp_port h);
                              ("options", PDict (hp_options h))] in
              ∀ k, to_key (hp_id h) = Some k →
              honeypots s !! k = None →
              class_of_tag (upper ty) = Some c →
              new_honeypot c (hp_id h) (hp_ip h) (hp_port h) (hp_options h) = inr h →
              py_get (config s) "honeypots" (PList []) = inr (PList items) →
              any_has_id k items = inr true →
              keyword_arguments (PDict (hp_options h)) = inr (hp_options h) →
              ensure_created v s =
                (inr tt,
                 add_log (mkLog INFO [Lit "Created "; Fmt (PStr ty);
                                      Lit " honeypot with ID "; Fmt (hp_id h)])
                   (set_honeypots (insert k h) s))) as Hstep.
    { intros s c ty h items v k Hk Hfresh Hc Hnew Hget Hany Hkw.
      unfold ensure_created. subst v. run_M.
      cbn [py_getitem py_get dict_lookup String.eqb Ascii.eqb Bool.eqb
           default from_option id].
      rewrite Hk, Hfresh, Hkw.
      by rewrite (create_honeypot_configured s _ k ty _ _ _ c h items). }
    pose proof (Hstep m0 SSHHoneypot "SSH" default_ssh (definitions m)
                  (KStr "ssh-honeypot-1")) as Hone.
    pose proof (Hstep created_ssh WebHoneypot "Web" default_web (definitions m)
                  (KStr "web-honeypot-1")) as Htwo.
    cbn [default_ssh default_web hp_id hp_ip hp_port hp_options] in Hone, Htwo.
    rewrite Hone; try done; [|by rewrite Hssh].
    fold created_ssh. rewrite Htwo; try done. by rewrite Hweb. }
  rewrite start_all_run. fold m0. rewrite Hfirst. cbn zeta.
  eexists _, _. split; [done|]. simpl_state.
  assert (fmap (λ h, fst (run_task hp_start h))
            (<[KStr "web-honeypot-1" := default_web]>
               (<[KStr "ssh-honeypot-1" := default_ssh]> (∅ : gmap hkey Honeypot)))
          = <[KStr "web-honeypot-1" := set_status Active default_web]>
              (<[KStr "ssh-honeypot-1" := set_status Active default_ssh]> ∅))
    as Hreg.
  { rewrite !fmap_insert, fmap_empty, !run_task_start.
    by rewrite Hstart_ssh, Hstart_web. }
  split; [exact Hreg|].
  unfold get_honeypot_status. cbn [truthy]. run_M. simpl_state.
  eexists. split; [done|].
  rewrite map_size_fmap.
  change (honeypots created_web)
    with (<[KStr "web-honeypot-1" := default_web]>
            (<[KStr "ssh-honeypot-1" := default_ssh]> (∅ : gmap hkey Honeypot))).
  rewrite Hreg.
  rewrite map_size_insert_None by done.
  rewrite map_size_insert_None by done.
  by rewrite map_size_empty.
Qed.

(** *** The registry and the configuration *)

Lemma has_id_inj k k' d : has_id k d = true → has_id k' d = true → k = k'.
Proof.
  unfold has_id. destruct (py_getitem d "id") as [|v]; [done|].
  rewrite !eq_key_true. congruence.
Qed.

Lemma without_id_total k items :
  Forall (λ d, ∃ v, py_getitem d "id" = inr v) items →
  without_id k items = inr (filter (λ d, has_id k d ≠ true) items).
Proof.
  induction 1 as [|d items [v Hv] _ IH]; [done|].
  assert (has_id k d = eq_key v k) as Hd by (unfold has_id; by rewrite Hv).
  cbn [without_id]. rewrite Hv, IH, filter_cons, <- Hd.
  destruct (decide (has_id k d ≠ true)) as [Hne|Heq].
  - by destruct (has_id k d).
  - destruct (has_id k d); [done|]. by destruct Heq.
Qed.

Lemma filter_other_id k k' (items : list pyval) :
  k ≠ k' →
  filter (λ d, has_id k' d = true) (filter (λ d, has_id k d ≠ true) items)
    = filter (λ d, has_id k' d = true) items.
Proof.
  intros Hne. apply list_filter_filter_l.
  intros d Hk' Hk. apply Hne. by eapply has_id_inj.
Qed.

Lemma filter_id_shrinks k k' (items : list pyval) :
  (length (filter (λ d, has_id k' d = true)
             (filter (λ d, has_id k d ≠ true) items))
   ≤ length (filter (λ d, has_id k' d = true) items))%nat.
Proof.
  induction items as [|d items IH]; [done|].
  rewrite (filter_cons (λ d, has_id k d ≠ true)).
  destruct (decide (has_id k d ≠ true)).
  - rewrite !filter_cons. destruct (decide (has_id k' d = true)); cbn; lia.
  - rewrite (filter_cons (λ d, has_id k' d = true) d).
    destruct (decide (has_id k' d = true)); cbn; lia.
Qed.

(** What [create_honeypot] does to the registry and the configuration
    when the configuration has the persisted layout: nothing, or it
    registers a new instance under a free id and, when no definition has
    that id, appends one. *)
Lemma create_honeypot_effect m honeypot_id ty ip port opts items :
  py_get (config m) "honeypots" (PList []) = inr (PList items) →
  Forall (λ d, ∃ v, py_getitem d "id" = inr v) items →
  let m' := snd (create_honeypot honeypot_id ty ip port opts m) in
  (honeypots m' = honeypots m ∧ config m' = config m) ∨
  (∃ k h, to_key honeypot_id = Some k ∧
          honeypots m !! k = None ∧
          honeypots m' = <[k := h]> (honeypots m) ∧
          ((filter (λ d, has_id k d = true) items ≠ [] ∧ config m' = config m) ∨
           (filter (λ d, has_id k d = true) items = [] ∧
            py_get (config m') "honeypots" (PList []) =
              inr (PList (items ++ [PDict [("id", honeypot_id);
                                          ("type", ty);
                                          ("ip", ip);
                                          ("port", port);
                                          ("options", PDict opts)]]))))).
Proof.
  intros Hget Hids m'. subst m'. unfold create_honeypot.
  destruct (to_key honeypot_id) as [k|] eqn:Hk; [|by left].
  run_M. destruct (honeypots m !! k) as [h0|] eqn:Hreg; [by left|].
  destruct (py_upper ty) as [e|tag]; [by left|].
  destruct (class_of_tag tag) as [c|]; [|by left].
  destruct (new_honeypot c honeypot_id ip port opts) as [e|h]; [by left|].
  right. exists k, h. split; [done|]. split; [done|].
  unfold configured. run_M. simpl_state. rewrite Hget. cbn [py_iter].
  rewrite (any_has_id_total k items Hids).
  case_bool_decide as Hknown.
  - split; [done|]. by left.
  - unfold append_definition. run_M. simpl_state.
    destruct (config m) as [| | | |entries] eqn:Hcfg; try done.
    cbn in Hget.
    destruct (dict_lookup entries "honeypots") as [[| | |l|]|] eqn:Hl;
      simplify_eq/=.
    + split; [done|]. right. split; [done|]. by rewrite dict_lookup_store.
    + split; [done|]. right. split; [done|]. by rewrite dict_lookup_store.
Qed.

(** What [remove_honeypot] does to them: nothing, or it drops the
    instance and every definition with its id. *)
Lemma remove_honeypot_effect m in_loop honeypot_id items :
  py_get (config m) "honeypots" (PList []) = inr (PList items) →
  Forall (λ d, ∃ v, py_getitem d "id" = inr v) items →
  let m' := snd (remove_honeypot in_loop honeypot_id m) in
  (honeypots m' = honeypots m ∧ config m' = config m) ∨
  (∃ k, to_key honeypot_id = Some k ∧
        honeypots m' = delete k (honeypots m) ∧
        py_get (config m') "honeypots" (PList []) =
          inr (PList (filter (λ d, has_id k d ≠ true) items))).
Proof.
  intros Hget Hids m'. subst m'. unfold remove_honeypot.
  destruct (to_key honeypot_id) as [k|] eqn:Hk; [|by left].
  run_M. destruct (honeypots m !! k) as [h|] eqn:Hreg; [|by left].
  assert (∀ s, honeypots s = honeypots m → config s = config m →
            let m' := snd (try_except
              (modify (set_honeypots (delete k)) ;;
               items <- configured ;;
               kept <- lift (without_id k items) ;;
               store_definitions (PList kept) ;;
               logger INFO [Lit "Removed honeypot with ID "; Fmt honeypot_id] ;;
               ret true)
              (λ e,
               logger ERROR [Lit "Failed to remove honeypot: "; FmtExn e] ;;
               ret false) s) in
            honeypots m' = delete k (honeypots m) ∧
            py_get (config m') "honeypots" (PList []) =
              inr (PList (filter (λ d, has_id k d ≠ true) items))) as Hrest.
  { intros s Hs Hc. unfold configured, store_definitions. run_M. simpl_state.
    rewrite Hc, Hget. cbn [py_iter]. rewrite (without_id_total k items Hids).
    destruct (config m) as [| | | |entries]; try done.
    simpl_state. rewrite Hc. run_M. simpl_state. rewrite Hs. split; [done|].
    cbn [py_get]. by rewrite dict_lookup_store. }
  unfold create_task.
  destruct (bool_decide (status h = Active)); [destruct in_loop|].
  - right. exists k. split; [done|]. run_M. by apply (Hrest m).
  - by left.
  - right. exists k. split; [done|]. run_M. by apply (Hrest m).
Qed.

Lemma consistent_create m honeypot_id ty ip port opts :
  consistent m →
  consistent (snd (create_honeypot honeypot_id ty ip port opts m)).
Proof.
  intros [(items & Hget & Hids & Huniq) Hbacked].
  pose proof (definitions_get m items Hget) as Hdefs.
  destruct (create_honeypot_effect m honeypot_id ty ip port opts items Hget Hids)
    as [[Hreg Hcfg]|(k & h & Hk & Hfresh & Hreg & Hcase)].
  - split.
    + rewrite Hcfg. by exists items.
    + intros k h. rewrite Hreg. unfold count_definitions.
      rewrite (definitions_config _ m Hcfg). apply Hbacked.
  - assert (∀ k', k' ≠ k → has_id k'
              (PDict [("id", honeypot_id); ("type", ty); ("ip", ip);
                      ("port", port); ("options", PDict opts)]) = false)
      as Hother.
    { intros k' Hne. cbn. by apply (eq_key_other _ k). }
    assert (has_id k
              (PDict [("id", honeypot_id); ("type", ty); ("ip", ip);
                      ("port", port); ("options", PDict opts)]) = true)
      as Hsame.
    { cbn. by apply eq_key_true. }
    destruct Hcase as [[Hknown Hcfg]|[Hnew Hget']].
    + split.
      * rewrite Hcfg. by exists items.
      * intros k' h'. rewrite Hreg. unfold count_definitions.
        rewrite (definitions_config _ m Hcfg), Hdefs.
        destruct (decide (k = k')) as [<-|Hne].
        -- intros _. specialize (Huniq k).
           destruct (filter (λ d, has_id k d = true) items) as [|? []];
             cbn in *; [done|done|lia].
        -- rewrite lookup_insert_ne by done. intros Hreg'.
           rewrite <- Hdefs. by eapply Hbacked.
    + split.
      * eexists. split; [exact Hget'|]. split.
        -- apply Forall_app. split; [done|].
           apply Forall_singleton. by eexists.
        -- intros k'. rewrite filter_app, length_app, filter_cons, filter_nil.
           destruct (decide (k' = k)) as [->|Hne].
           ++ rewrite Hnew. by case_decide.
           ++ rewrite decide_False by (by rewrite Hother).
              specialize (Huniq k'). cbn. lia.
      * intros k' h'. rewrite Hreg. unfold count_definitions.
        rewrite (definitions_get _ _ Hget').
        rewrite filter_app, length_app, filter_cons, filter_nil.
        destruct (decide (k = k')) as [<-|Hne].
        -- intros _. rewrite Hnew, decide_True by done. done.
        -- rewrite lookup_insert_ne by done. intros Hreg'.
           rewrite decide_False by (rewrite Hother; done).
           specialize (Hbacked k' h' Hreg'). unfold count_definitions in Hbacked.
           rewrite Hdefs in Hbacked. cbn. lia.
Qed.

Lemma consistent_remove m in_loop honeypot_id :
  consistent m →
  consistent (snd (remove_honeypot in_loop honeypot_id m)).
Proof.
  intros [(items & Hget & Hids & Huniq) Hbacked].
  pose proof (definitions_get m items Hget) as Hdefs.
  destruct (remove_honeypot_effect m in_loop honeypot_id items Hget Hids)
    as [[Hreg Hcfg]|(k & Hk & Hreg & Hget')].
  - split.
    + rewrite Hcfg. by exists items.
    + intros k h. rewrite Hreg. unfold count_definitions.
      rewrite (definitions_config _ m Hcfg). apply Hbacked.
  - split.
    + eexists. split; [exact Hget'|]. split.
      * apply Forall_forall. intros d [_ Hd]%list_elem_of_filter.
        by eapply Forall_forall in Hids.
      * intros k'. etrans; [apply filter_id_shrinks|apply Huniq].
    + intros k' h'. rewrite Hreg. unfold count_definitions.
      rewrite (definitions_get _ _ Hget').
      intros [Hne Hreg']%lookup_delete_Some.
      rewrite filter_other_id by done.
      specialize (Hbacked k' h' Hreg'). unfold count_definitions in Hbacked.
      by rewrite Hdefs in Hbacked.
Qed.

Lemma fresh_manager_consistent d : consistent (init None d).
Proof.
  split.
  - eexists. split; [done|]. split.
    + repeat constructor; by eexists.
    + intros k. cbn [filter list_filter default_config].
      unfold has_id. cbn [py_getitem dict_lookup String.eqb Ascii.eqb Bool.eqb].
      unfold eq_key. cbn [to_key].
      repeat case_decide; simplify_eq/=; try lia.
      all: repeat case_bool_decide; simplify_eq/=; lia.
  - intros k h Hreg. cbn in Hreg. by rewrite lookup_empty in Hreg.
Qed.

(** A manager is consistent as constructed, unless it has loaded a
    document that parses but does not have the persisted layout. *)
Lemma init_consistent config_file d :
  (∀ path text doc,
     config_file = Some path → d !! path = Some (File text) →
     yaml_safe_load text = inr doc → well_formed doc) →
  consistent (init config_file d).
Proof.
  intros Hdoc.
  assert (∀ m, honeypots m = ∅ → well_formed (config m) → consistent m) as Hempty.
  { intros m Hreg Hwf. split; [done|]. intros k h. by rewrite Hreg, lookup_empty. }
  assert (well_formed (PDict [("honeypots", PList [])])) as Hnone.
  { exists []. repeat split; [by constructor|]. intros k. cbn. lia. }
  destruct config_file as [path|]; [|apply fresh_manager_consistent].
  unfold init.
  destruct (truthy (PStr path) && path_exists d path) eqn:Hcond;
    [|apply (fresh_manager_consistent d)].
  set (blank := mkState ∅ (PDict []) false [] d).
  destruct (d !! path) as [[text|]|] eqn:Hfile.
  - destruct (yaml_safe_load text) as [e|doc] eqn:Hparse.
    + rewrite (load_config_failed blank path e) by (right; eauto).
      by apply Hempty.
    + rewrite (load_config_parsed blank path text doc) by done.
      apply Hempty; [done|]. simpl_state. by eapply Hdoc.
  - rewrite (load_config_failed blank path OSError).
    + by apply Hempty.
    + left. unfold open_read. run_M. subst blank. simpl_state. by rewrite Hfile.
  - rewrite (load_config_failed blank path OSError).
    + by apply Hempty.
    + left. unfold open_read. run_M. subst blank. simpl_state. by rewrite Hfile.
Qed.

(** X25. Starting from a state whose configuration has the persisted
    layout (a list of records with distinct ids under ['honeypots']) and
    in which every registered instance has exactly one definition, as in
    a manager constructed without a file, every sequence of
    [create_honeypot] and [remove_honeypot] calls ends in a state in which
    every registered instance has exactly one definition with its id.  The
    configuration may hold definitions of ids that are not registered. *)
Theorem registry_backed_invariant m ops :
  consistent m → registry_backed (run ops m).
Proof.
  intros Hm. enough (consistent (run ops m)) as [_ Hbacked] by exact Hbacked.
  revert m Hm. induction ops as [|o ops IH]; intros m Hm; [done|].
  cbn [run fold_left]. apply IH.
  destruct o as [i t a p o|l i]; cbn [step].
  - by apply consistent_create.
  - by apply consistent_remove.
Qed.

(** ** Further properties of the manager *)

(** *** Creation *)

(** For a hashable id [create_honeypot] returns, and what was registered
    stays registered. *)
Lemma create_honeypot_returns m honeypot_id k ty ip port opts :
  to_key honeypot_id = Some k →
  ∃ r m', create_honeypot honeypot_id ty ip port opts m = (inr r, m') ∧
          honeypots m ⊆ honeypots m'.
Proof.
  unfold create_honeypot. intros ->. run_M.
  destruct (honeypots m !! k) as [h0|] eqn:Hreg; [by eauto|].
  destruct (py_upper ty) as [e|tag]; [by eauto|].
  destruct (class_of_tag tag) as [c|]; [|by eauto].
  destruct (new_honeypot c honeypot_id ip port opts) as [e|h]; [by eauto|].
  run_M. unfold configured. run_M. simpl_state.
  assert (honeypots m ⊆ <[k:=h]> (honeypots m)) as Hsub
    by by apply insert_subseteq.
  destruct (py_get (config m) "honeypots" (PList [])) as [e|defs]; [by eauto|].
  destruct (py_iter defs) as [e|items]; [by eauto|].
  destruct (any_has_id k items) as [e|[]]; [by eauto|by eauto|].
  match goal with |- context [append_definition ?d ?s] =>
    pose proof (append_definition_honeypots d s) as Hsame;
    destruct (append_definition d s) as [[e|[]] m'] end;
    simpl_state; eexists _, _; (split; [done|]); simpl_state; by rewrite Hsame.
Qed.

(** X1. [create_honeypot] raises in one case only, an unhashable id, and
    then nothing has changed.  For every other id it returns, whatever the
    type tag, the constructor and the configuration do, and every instance
    that was registered is still registered as it was. *)
Theorem create_honeypot_raises_only_unhashable m honeypot_id ty ip port opts :
  (to_key honeypot_id = None →
   create_honeypot honeypot_id ty ip port opts m = (inl TypeError, m)) ∧
  (∀ k, to_key honeypot_id = Some k →
        ∃ r m', create_honeypot honeypot_id ty ip port opts m = (inr r, m') ∧
                honeypots m ⊆ honeypots m').
Proof.
  split.
  - unfold create_honeypot. by intros ->.
  - intros k Hk. by eapply create_honeypot_returns.
Qed.

(** X2. When no instance can be built for a free id (the type is not a
    string, or its upper-casing selects a class whose constructor raises),
    [create_honeypot] returns [None] and logs an ERROR with the exception;
    the registry and the configuration are as before. *)
Theorem create_honeypot_construction_fails m k ty ip port opts e :
  honeypots m !! k = None →
  py_upper ty = inl e ∨
  (∃ tag c, py_upper ty = inr tag ∧ class_of_tag tag = Some c ∧
            new_honeypot c (of_key k) ip port opts = inl e) →
  create_honeypot (of_key k) ty ip port opts m =
    (inr None,
     add_log (mkLog ERROR [Lit "Failed to create honeypot: "; FmtExn e]) m).
Proof.
  intros Hfresh Hfail. unfold create_honeypot. rewrite to_key_of_key. run_M.
  rewrite Hfresh. destruct Hfail as [->|(tag & c & -> & -> & ->)]; done.
Qed.

(** X3. The instance is registered before the configuration is read: when
    the configuration is not a mapping (as after loading an empty
    document), [create_honeypot] with a supported type and a free id
    returns [None] and logs an ERROR, yet the new instance is registered,
    and a second call with the same id returns it. *)
Theorem create_honeypot_registers_before_configuration m k ty ip port opts c e :
  honeypots m !! k = None →
  class_of_tag (upper ty) = Some c →
  constructor_raises c (of_key k) ip port opts = None →
  py_get (config m) "honeypots" (PList []) = inl e →
  let h := mkHoneypot c (of_key k) ip port opts Inactive in
  let m' := snd (create_honeypot (of_key k) (PStr ty) ip port opts m) in
  fst (create_honeypot (of_key k) (PStr ty) ip port opts m) = inr None ∧
  honeypots m' = <[k := h]> (honeypots m) ∧
  config m' = config m ∧
  last (log m') = Some (mkLog ERROR [Lit "Failed to create honeypot: "; FmtExn e]) ∧
  fst (create_honeypot (of_key k) (PStr ty) ip port opts m') = inr (Some h).
Proof.
  intros Hfresh Hc Hctor Hget h m'.
  assert (create_honeypot (of_key k) (PStr ty) ip port opts m =
          (inr None,
           add_log (mkLog ERROR [Lit "Failed to create honeypot: "; FmtExn e])
             (add_log (mkLog INFO [Lit "Created "; Fmt (PStr ty);
                                   Lit " honeypot with ID "; Fmt (of_key k)])
                (set_honeypots (insert k h) m)))) as Hrun.
  { unfold create_honeypot. rewrite to_key_of_key. run_M. rewrite Hfresh.
    cbn [py_upper]. rewrite Hc. unfold new_honeypot. rewrite Hctor. fold h.
    run_M. unfold configured. run_M. simpl_state. by rewrite Hget. }
  subst m'. rewrite !Hrun. simpl_state. repeat split; try done.
  - by rewrite last_snoc.
  - rewrite (create_honeypot_existing _ (of_key k) k h).
    + done.
    + apply to_key_of_key.
    + simpl_state. apply lookup_insert_eq.
Qed.

(** *** Removal *)

(** What [remove_honeypot] computes when the configuration has the
    persisted layout. *)
Lemma remove_honeypot_run m in_loop honeypot_id k entries items :
  to_key honeypot_id = Some k →
  config m = PDict entries →
  py_get (config m) "honeypots" (PList []) = inr (PList items) →
  Forall (λ d, ∃ v, py_getitem d "id" = inr v) items →
  remove_honeypot in_loop honeypot_id m =
    match honeypots m !! k with
    | None =>
        (inr false,
         add_log (mkLog WARNING [Lit "Honeypot with ID "; Fmt honeypot_id;
                                 Lit " does not exist"]) m)
    | Some h =>
        if bool_decide (status h = Active) && negb in_loop
        then (inr false,
              add_log (mkLog ERROR [Lit "Failed to remove honeypot: ";
                                    FmtExn RuntimeError]) m)
        else (inr true,
              add_log (mkLog INFO [Lit "Removed honeypot with ID ";
                                   Fmt honeypot_id])
                (set_config
                   (PDict (dict_store entries "honeypots"
                             (PList (filter (λ d, has_id k d ≠ true) items))))
                   (set_honeypots (delete k) m)))
    end.
Proof.
  intros Hk Hcfg Hget Hids. unfold remove_honeypot. rewrite Hk. run_M.
  destruct (honeypots m !! k) as [h|]; [|done].
  assert (∀ s, config s = config m →
            try_except
              (modify (set_honeypots (delete k)) ;;
               items <- configured ;;
               kept <- lift (without_id k items) ;;
               store_definitions (PList kept) ;;
               logger INFO [Lit "Removed honeypot with ID "; Fmt honeypot_id] ;;
               ret true)
              (λ e,
               logger ERROR [Lit "Failed to remove honeypot: "; FmtExn e] ;;
               ret false) s =
            (inr true,
             add_log (mkLog INFO [Lit "Removed honeypot with ID ";
                                  Fmt honeypot_id])
               (set_config
                  (PDict (dict_store entries "honeypots"
                            (PList (filter (λ d, has_id k d ≠ true) items))))
                  (set_honeypots (delete k) s)))) as Hrest.
  { intros s Hc. unfold configured, store_definitions. run_M. simpl_state.
    rewrite Hc, Hget. cbn [py_iter]. rewrite (without_id_total k items Hids).
    simpl_state. rewrite Hc, Hcfg. run_M. done. }
  unfold create_task.
  destruct (bool_decide (status h = Active)); [destruct in_loop|]; cbn [andb negb].
  - run_M. by apply (Hrest m).
  - done.
  - run_M. by apply (Hrest m).
Qed.

Lemma remove_honeypot_layout m in_loop honeypot_id k items :
  py_get (config m) "honeypots" (PList []) = inr (PList items) →
  Forall (λ d, ∃ v, py_getitem d "id" = inr v) items →
  to_key honeypot_id = Some k →
  ∃ b m',
    remove_honeypot in_loop honeypot_id m = (inr b, m') ∧
    (b = true ↔
     ∃ h, honeypots m !! k = Some h ∧ (status h = Active → in_loop = true)) ∧
    (b = false → honeypots m' = honeypots m ∧ config m' = config m) ∧
    (b = true →
     honeypots m' = delete k (honeypots m) ∧
     definitions m' = filter (λ d, has_id k d ≠ true) (definitions m)).
Proof.
  intros Hget Hids Hk.
  destruct (config m) as [| | | |entries] eqn:Hcfg; try done.
  rewrite <- Hcfg in Hget.
  rewrite (remove_honeypot_run m in_loop honeypot_id k entries items) by done.
  rewrite (definitions_get m items Hget).
  destruct (honeypots m !! k) as [h|] eqn:Hreg.
  - destruct (decide (status h = Active)) as [Ha|Hna]; [destruct in_loop|].
    + rewrite bool_decide_eq_true_2 by done. cbn [andb negb].
      eexists _, _. split; [done|]. repeat split; try done; eauto.
      apply definitions_get. simpl_state. cbn [py_get].
      by rewrite dict_lookup_store.
    + rewrite bool_decide_eq_true_2 by done. cbn [andb negb].
      eexists _, _. split; [done|]. repeat split; try done.
      intros (h' & [= <-] & Hloop). by specialize (Hloop Ha).
    + rewrite bool_decide_eq_false_2 by done. cbn [andb].
      eexists _, _. split; [done|]. repeat split; try done; eauto.
      apply definitions_get. simpl_state. cbn [py_get].
      by rewrite dict_lookup_store.
  - eexists _, _. split; [done|]. repeat split; try done.
    by intros (h & [= ] & _).
Qed.

(** X4. With a configuration of the persisted layout, [remove_honeypot]
    returns [True] exactly when the id is registered and, for an [Active]
    instance, the call is made inside an event loop.  When it returns
    [False] the registry and the configuration are as before; when it
    returns [True] the instance is dropped and so is every definition with
    that id. *)
Theorem remove_honeypot_outcome m in_loop honeypot_id k :
  well_formed (config m) →
  to_key honeypot_id = Some k →
  ∃ b m',
    remove_honeypot in_loop honeypot_id m = (inr b, m') ∧
    (b = true ↔
     ∃ h, honeypots m !! k = Some h ∧ (status h = Active → in_loop = true)) ∧
    (b = false → honeypots m' = honeypots m ∧ config m' = config m) ∧
    (b = true →
     honeypots m' = delete k (honeypots m) ∧
     definitions m' = filter (λ d, has_id k d ≠ true) (definitions m)).
Proof.
  intros (items & Hget & Hids & _) Hk. by eapply remove_honeypot_layout.
Qed.

(** X5. A removal that returns [True] touches its own id only: the id is
    no longer registered and has no definition left, while every other id
    keeps its instance and its definitions. *)
Theorem remove_honeypot_frame m in_loop honeypot_id k :
  well_formed (config m) →
  to_key honeypot_id = Some k →
  fst (remove_honeypot in_loop honeypot_id m) = inr true →
  let m' := snd (remove_honeypot in_loop honeypot_id m) in
  honeypots m' !! k = None ∧
  count_definitions k m' = 0%nat ∧
  ∀ k', k' ≠ k →
        honeypots m' !! k' = honeypots m !! k' ∧
        count_definitions k' m' = count_definitions k' m.
Proof.
  intros Hwf Hk Htrue m'.
  destruct Hwf as (items & Hget & Hids & _).
  destruct (remove_honeypot_layout m in_loop honeypot_id k items Hget Hids Hk)
    as (b & m1 & Hrun & _ & _ & Hgone).
  subst m'. rewrite Hrun in Htrue |- *. cbn [fst snd] in *.
  injection Htrue as ->. destruct (Hgone eq_refl) as [Hreg Hdefs].
  unfold count_definitions. rewrite Hreg, Hdefs. split; [apply lookup_delete_eq|].
  split.
  - rewrite list_filter_filter.
    assert (∀ l : list pyval,
              filter (λ d, has_id k d = true ∧ has_id k d ≠ true) l = [])
      as ->; [|done].
    induction l as [|d l IH]; [done|].
    rewrite filter_cons_False; [done|]. by intros [? ?].
  - intros k' Hne. split; [by apply lookup_delete_ne|].
    by rewrite filter_other_id.
Qed.

(** X6. Creation followed by removal is a round trip: for a free id
    without a definition, a configuration of the persisted layout and
    arguments the constructor accepts, [create_honeypot] and then
    [remove_honeypot] of the same id return the instance and [True] and
    leave the registry and the definitions as they were at the start. *)
Theorem create_then_remove_restores m in_loop k ty ip port opts c :
  well_formed (config m) →
  honeypots m !! k = None →
  count_definitions k m = 0%nat →
  class_of_tag (upper ty) = Some c →
  constructor_raises c (of_key k) ip port opts = None →
  let created := create_honeypot (of_key k) (PStr ty) ip port opts m in
  let removed := remove_honeypot in_loop (of_key k) (snd created) in
  fst created = inr (Some (mkHoneypot c (of_key k) ip port opts Inactive)) ∧
  fst removed = inr true ∧
  honeypots (snd removed) = honeypots m ∧
  definitions (snd removed) = definitions m.
Proof.
  intros Hwf Hfresh Hcount Hc Hctor created removed.
  destruct (create_honeypot_selected m k ty ip port opts c Hfresh Hc Hctor)
    as [Hreg Hret].
  fold created in Hreg, Hret. specialize (Hret Hwf).
  destruct Hwf as (items & Hget & Hids & Huniq).
  pose proof (definitions_get m items Hget) as Hdefs.
  unfold count_definitions in Hcount. rewrite Hdefs in Hcount.
  apply length_zero_iff_nil in Hcount.
  destruct (create_honeypot_effect m (of_key k) (PStr ty) ip port opts items
              Hget Hids) as [[Hsame _]|(k1 & h1 & Hk1 & _ & _ & Hcase)].
  { fold created in Hsame. rewrite Hreg in Hsame.
    assert (<[k:=mkHoneypot c (of_key k) ip port opts Inactive]> (honeypots m)
              !! k = None) as Hbad by (by rewrite Hsame).
    by rewrite lookup_insert_eq in Hbad. }
  rewrite to_key_of_key in Hk1. injection Hk1 as <-.
  destruct Hcase as [[Hknown _]|[_ Hget']]; [done|]. fold created in Hget'.
  set (d := PDict [("id", of_key k); ("type", PStr ty); ("ip", ip);
                   ("port", port); ("options", PDict opts)]) in *.
  assert (has_id k d = true) as Hd by (cbn; apply eq_key_true, to_key_of_key).
  assert (Forall (λ d, ∃ v, py_getitem d "id" = inr v) (items ++ [d])) as Hids'.
  { apply Forall_app. split; [done|]. apply Forall_singleton. by eexists. }
  destruct (remove_honeypot_layout (snd created) in_loop (of_key k) k _
              Hget' Hids' (to_key_of_key k))
    as (b & m1 & Hrun & Hiff & _ & Hgone).
  assert (b = true) as ->.
  { apply Hiff. eexists. split; [by rewrite Hreg, lookup_insert_eq|]. done. }
  subst removed. rewrite Hrun. cbn [fst snd].
  destruct (Hgone eq_refl) as [Hreg1 Hdefs1].
  split; [done|]. split; [done|]. split.
  - rewrite Hreg1, Hreg, delete_insert_eq. by apply delete_id.
  - rewrite Hdefs1, (definitions_get _ _ Hget'), Hdefs.
    rewrite filter_app, filter_cons, filter_nil.
    rewrite decide_False by (by rewrite Hd; intros Hneq; apply Hneq).
    rewrite app_nil_r. clear -Hcount.
    induction items as [|x items IH]; [done|].
    rewrite filter_cons in Hcount.
    destruct (decide (has_id k x = true)) as [|Hx]; [done|].
    rewrite filter_cons_True by done. by rewrite IH.
Qed.

(** *** Stopping *)

Lemma run_task_stop h :
  run_task hp_stop h =
    match stop_raises h with
    | Some e => (h, Failed e)
    | None => (set_status Inactive h, Done)
    end.
Proof. unfold run_task, hp_stop. by destruct (stop_raises h). Qed.

(** What [stop_all] computes. *)
Lemma stop_all_run m :
  stop_all m =
    let tasks :=
      filter (λ kh, status (snd kh) = Active) (map_to_list (honeypots m)) in
    (inr (results_of hp_stop tasks),
     set_honeypots
       (fmap (λ h, if bool_decide (status h = Active)
                   then fst (run_task hp_stop h) else h))
       (add_logs
          (map (λ kh, mkLog INFO [Lit "Stopping honeypot "; Fmt (of_key (fst kh))])
             tasks)
          (set_running false m))).
Proof.
  unfold stop_all, bind, modify, gets. cbn [snd].
  rewrite for_each_logger. done.
Qed.

(** X7. [stop_all] always returns and clears the running flag.  It makes a
    stop task for the [Active] instances only: an instance that is not
    [Active] gets no task and stays as it is; an [Active] one becomes
    [Inactive] when its stop succeeds and stays as it is, with the
    exception as its result, when its stop raises, whatever the other
    stops do. *)
Theorem stop_all_isolates_failures m :
  ∃ results m',
    stop_all m = (inr results, m') ∧
    running m' = false ∧
    config m' = config m ∧
    ∀ k h, honeypots m !! k = Some h →
      (status h ≠ Active →
       honeypots m' !! k = Some h ∧ ∀ r, (k, r) ∉ results) ∧
      (status h = Active → stop_raises h = None →
       (k, Done) ∈ results ∧ honeypots m' !! k = Some (set_status Inactive h)) ∧
      (∀ e, status h = Active → stop_raises h = Some e →
       (k, Failed e) ∈ results ∧ honeypots m' !! k = Some h).
Proof.
  rewrite stop_all_run. cbn zeta. eexists _, _. split; [done|].
  simpl_state. split; [done|]. split; [done|].
  intros k h Hreg. rewrite lookup_fmap, Hreg. cbn [fmap option_fmap option_map].
  assert (∀ r, (k, r) ∈ results_of hp_stop
                 (filter (λ kh, status (snd kh) = Active)
                    (map_to_list (honeypots m))) ↔
               status h = Active ∧ r = snd (run_task hp_stop h)) as Hin.
  { intros r. unfold results_of. rewrite list_elem_of_fmap. split.
    - intros ([k' h'] & [= <- ->] & [Ha Hkh]%list_elem_of_filter).
      apply elem_of_map_to_list in Hkh. cbn in *. by simplify_eq.
    - intros [Ha ->]. exists (k, h). split; [done|].
      apply list_elem_of_filter. split; [done|]. by apply elem_of_map_to_list. }
  split; [|split].
  - intros Hna. split; [by rewrite bool_decide_eq_false_2|].
    by intros r [Ha _]%Hin.
  - intros Ha Hs. split; [apply Hin; by rewrite run_task_stop, Hs|].
    rewrite bool_decide_eq_true_2 by done. by rewrite run_task_stop, Hs.
  - intros e Ha Hs. split; [apply Hin; by rewrite run_task_stop, Hs|].
    rewrite bool_decide_eq_true_2 by done. by rewrite run_task_stop, Hs.
Qed.

(** X8. When the stop of every [Active] instance succeeds, every
    registered instance is [Inactive] after [stop_all], and the registry
    holds the same ids as before. *)
Theorem stop_all_leaves_all_inactive m :
  (∀ k h, honeypots m !! k = Some h → status h = Active →
          stop_raises h = None) →
  let m' := snd (stop_all m) in
  dom (honeypots m') = dom (honeypots m) ∧
  ∀ k h', honeypots m' !! k = Some h' → status h' = Inactive.
Proof.
  intros Hstops m'. subst m'. rewrite stop_all_run. cbn zeta. simpl_state.
  split; [by rewrite dom_fmap_L|].
  intros k h'. rewrite lookup_fmap.
  destruct (honeypots m !! k) as [h|] eqn:Hreg; [|done].
  cbn [fmap option_fmap option_map]. intros [= <-].
  case_bool_decide as Ha.
  - rewrite run_task_stop, (Hstops k h Hreg Ha). done.
  - by destruct (status h).
Qed.

(** X9. [stop_honeypot] on a hashable id: [True] and no change when the
    instance is registered and not [Active]; [False] and a WARNING when
    the id is not registered; for an [Active] instance [True] with the
    instance [Inactive] when the stop succeeds, [False] with an ERROR
    record and the instance as it was when the stop raises.  The call
    always returns. *)
Theorem stop_honeypot_cases m k :
  let called := stop_honeypot (of_key k) m in
  (∀ h, honeypots m !! k = Some h → status h ≠ Active →
        called = (inr true, m)) ∧
  (honeypots m !! k = None →
   called = (inr false,
             add_log (mkLog WARNING [Lit "Honeypot with ID "; Fmt (of_key k);
                                     Lit " does not exist"]) m)) ∧
  (∀ h, honeypots m !! k = Some h → status h = Active →
        stop_raises h = None →
        called = (inr true,
                  add_log (mkLog INFO [Lit "Stopped honeypot "; Fmt (of_key k)])
                    (set_honeypots (insert k (set_status Inactive h)) m))) ∧
  (∀ h e, honeypots m !! k = Some h → status h = Active →
          stop_raises h = Some e →
          called = (inr false,
                    add_log (mkLog ERROR [Lit "Failed to stop honeypot ";
                                          Fmt (of_key k); Lit ": "; FmtExn e]) m)) ∧
  (∃ b m', called = (inr b, m')).
Proof.
  intros called. subst called. unfold stop_honeypot, get_honeypot, write_back.
  rewrite to_key_of_key. run_M. unfold hp_stop.
  destruct (honeypots m !! k) as [h|] eqn:Hreg.
  - destruct (decide (status h = Active)) as [Ha|Hna].
    + rewrite bool_decide_eq_true_2 by done.
      destruct (stop_raises h) as [e|] eqn:Hs; cbn;
        repeat split; intros; simplify_eq; try done; eauto.
    + rewrite bool_decide_eq_false_2 by done.
      repeat split; intros; simplify_eq; try done; eauto.
  - repeat split; intros; simplify_eq; try done; eauto.
Qed.

(** *** Start and stop together *)

(** X10. Starting is idempotent once it has succeeded: when
    [start_honeypot] returns [True], calling it again with the same id
    returns [True] and changes nothing, not even the log. *)
Theorem start_honeypot_again m honeypot_id :
  fst (start_honeypot honeypot_id m) = inr true →
  start_honeypot honeypot_id (snd (start_honeypot honeypot_id m)) =
    (inr true, snd (start_honeypot honeypot_id m)).
Proof.
  unfold start_honeypot, get_honeypot, write_back.
  destruct (to_key honeypot_id) as [k|] eqn:Hk; [|by run_M].
  run_M. destruct (honeypots m !! k) as [h|] eqn:Hreg; [|done].
  unfold hp_start.
  destruct (decide (status h = Active)) as [Ha|Hna].
  - rewrite bool_decide_eq_false_2 by (by intros ?). cbn [fst snd].
    intros _. rewrite Hreg. by rewrite bool_decide_eq_false_2 by (by intros ?).
  - rewrite bool_decide_eq_true_2 by done.
    destruct (start_raises h) as [e|]; [done|]. run_M. simpl_state.
    intros _. rewrite lookup_insert_eq. cbn [status set_status].
    by rewrite bool_decide_eq_false_2 by (by intros ?).
Qed.

(** X11. A successful start followed by a successful stop is a round
    trip on the registry: for a registered [Inactive] instance both calls
    return [True] and the registry is as before, the instance [Inactive]
    again with all its fields. *)
Theorem start_then_stop_restores m k h :
  honeypots m !! k = Some h →
  status h = Inactive →
  start_raises h = None →
  stop_raises (set_status Active h) = None →
  let started := start_honeypot (of_key k) m in
  let stopped := stop_honeypot (of_key k) (snd started) in
  fst started = inr true ∧
  honeypots (snd started) !! k = Some (set_status Active h) ∧
  fst stopped = inr true ∧
  honeypots (snd stopped) = honeypots m ∧
  config (snd stopped) = config m.
Proof.
  intros Hreg Hst Hstart Hstop started stopped.
  assert (started =
          (inr true,
           add_log (mkLog INFO [Lit "Started honeypot "; Fmt (of_key k)])
             (set_honeypots (insert k (set_status Active h)) m))) as Hs1.
  { subst started. unfold start_honeypot, get_honeypot, write_back.
    rewrite to_key_of_key. run_M. rewrite Hreg. unfold hp_start.
    rewrite bool_decide_eq_true_2 by (by rewrite Hst). by rewrite Hstart. }
  subst stopped. rewrite Hs1. cbn [fst snd].
  unfold stop_honeypot, get_honeypot, write_back.
  rewrite to_key_of_key. run_M. simpl_state. rewrite lookup_insert_eq.
  unfold hp_stop. cbn [status set_status].
  rewrite bool_decide_eq_true_2 by done. rewrite Hstop. run_M. simpl_state.
  repeat split; try done; try apply lookup_insert_eq.
  rewrite insert_insert_eq. apply insert_id. rewrite Hreg. f_equal.
  destruct h. cbn in *. by subst.
Qed.

(** *** Status queries *)

(** X12. [get_honeypot_status] never changes anything.  With an id that
    is true as a condition it gives the snapshot of the instance, or
    [None] when the id is not registered; with [None], the empty string or
    [0] it gives one snapshot per registered instance, so an instance
    registered under the empty string or [0] cannot be queried alone. *)
Theorem get_honeypot_status_cases m k :
  let called := get_honeypot_status (of_key k) m in
  (truthy (of_key k) = true →
   called = (inr (match honeypots m !! k with
                  | Some h => StatusOf (get_status h)
                  | None => NoStatus
                  end), m)) ∧
  (truthy (of_key k) = false →
   ∃ snapshots,
     called = (inr (StatusOfAll snapshots), m) ∧
     dom snapshots = dom (honeypots m) ∧
     ∀ k' h, honeypots m !! k' = Some h → snapshots !! k' = Some (get_status h)).
Proof.
  intros called. subst called. unfold get_honeypot_status, get_honeypot.
  rewrite to_key_of_key. split; intros ->; run_M.
  - by destruct (honeypots m !! k).
  - eexists. split; [done|]. split; [by rewrite dom_fmap_L|].
    intros k' h Hreg. by rewrite lookup_fmap, Hreg.
Qed.

(** *** Loading and saving, continued *)

(** [load_config] never raises and touches the configuration and the log
    only. *)
Lemma load_config_frame m path :
  fst (load_config path m) = inr tt ∧
  honeypots (snd (load_config path m)) = honeypots m ∧
  running (snd (load_config path m)) = running m ∧
  disk (snd (load_config path m)) = disk m.
Proof.
  unfold load_config, open_read. run_M.
  destruct (disk m !! path) as [[text|]|]; try done.
  by destruct (yaml_safe_load text).
Qed.

(** X13. [load_config] on a path that holds no readable file (nothing
    there, or a directory) returns normally, logs an ERROR and leaves the
    empty definition set, neither the built-in default nor the
    configuration it had. *)
Theorem load_config_unreadable m path :
  disk m !! path = None ∨ disk m !! path = Some Directory →
  load_config path m =
    (inr tt,
     set_config (PDict [("honeypots", PList [])])
       (add_log (mkLog ERROR [Lit "Failed to load configuration: ";
                              FmtExn OSError]) m)) ∧
  definitions (snd (load_config path m)) = [].
Proof.
  intros Hnone.
  rewrite (load_config_failed m path OSError); [done|].
  left. unfold open_read. run_M. by destruct Hnone as [->| ->].
Qed.

(** X14. [load_config] never raises and never touches the registry.  So
    after a load that failed, every instance that is registered is left
    without a definition. *)
Theorem load_config_keeps_registry m path :
  fst (load_config path m) = inr tt ∧
  honeypots (snd (load_config path m)) = honeypots m ∧
  ((∀ text, disk m !! path = Some (File text) →
            ∃ e, yaml_safe_load text = inl e) →
   ∀ k h, honeypots m !! k = Some h →
          honeypots (snd (load_config path m)) !! k = Some h ∧
          count_definitions k (snd (load_config path m)) = 0%nat).
Proof.
  destruct (load_config_frame m path) as (Hret & Hreg & _).
  split; [done|]. split; [done|].
  intros Hbad k h Hk. rewrite Hreg. split; [done|].
  assert (∃ e, load_config path m =
               (inr tt,
                set_config (PDict [("honeypots", PList [])])
                  (add_log (mkLog ERROR [Lit "Failed to load configuration: ";
                                         FmtExn e]) m))) as [e ->].
  { destruct (disk m !! path) as [[text|]|] eqn:Hfile.
    - destruct (Hbad text eq_refl) as [e He]. exists e.
      apply load_config_failed. right. eauto.
    - exists OSError. apply load_config_failed. left.
      unfold open_read. run_M. by rewrite Hfile.
    - exists OSError. apply load_config_failed. left.
      unfold open_read. run_M. by rewrite Hfile. }
  done.
Qed.

(** A name without ['/'] behind a directory: the directory and the name
    are the two parts of the path. *)
Lemma split_path_join dir name :
  split_path name = (None, name) →
  split_path (String.append dir (String "/" name)) = (Some dir, name).
Proof.
  intros Hname. induction dir as [|c dir IH].
  - change (split_path (String "/" name) = (Some "", name)).
    cbn [split_path]. by rewrite Hname.
  - change (split_path (String c (String.append dir (String "/" name)))
            = (Some (String c dir), name)).
    cbn [split_path]. by rewrite IH.
Qed.

(** X15. [save_config] never raises and changes neither the registry nor
    the configuration.  When the destination cannot be opened for writing
    it logs an ERROR and the disk is as before: so for the empty path, for
    a directory, and for a name in a directory that does not exist.
    Otherwise it logs an INFO record and the disk differs at the
    destination only, which holds the dumped configuration. *)
Theorem save_config_effect m path :
  let m' := snd (save_config path m) in
  let failed :=
    disk m' = disk m ∧
    log m' = log m ++ [mkLog ERROR [Lit "Failed to save configuration: ";
                                    FmtExn OSError]] in
  fst (save_config path m) = inr tt ∧
  honeypots m' = honeypots m ∧
  config m' = config m ∧
  (writable (disk m) path = false → failed) ∧
  (path = "" → failed) ∧
  (disk m !! path = Some Directory → failed) ∧
  (∀ dir name,
     path = String.append dir (String "/" name) →
     split_path name = (None, name) →
     dir ≠ "" → is_directory (disk m) dir = false → failed) ∧
  (writable (disk m) path = true →
   disk m' = <[path := File (yaml_dump (config m))]> (disk m) ∧
   log m' = log m ++ [mkLog INFO [Lit "Configuration saved to ";
                                  Fmt (PStr path)]]).
Proof.
  intros m' failed. subst m' failed. rewrite save_config_run. cbn [fst snd].
  assert (writable (disk m) path = false →
          disk (if writable (disk m) path
                then add_log (mkLog INFO [Lit "Configuration saved to ";
                                          Fmt (PStr path)])
                       (set_disk (<[path := File (yaml_dump (config m))]> (disk m))
                          m)
                else add_log (mkLog ERROR [Lit "Failed to save configuration: ";
                                           FmtExn OSError]) m) = disk m ∧
          log (if writable (disk m) path
               then add_log (mkLog INFO [Lit "Configuration saved to ";
                                         Fmt (PStr path)])
                      (set_disk (<[path := File (yaml_dump (config m))]> (disk m))
                         m)
               else add_log (mkLog ERROR [Lit "Failed to save configuration: ";
                                          FmtExn OSError]) m)
          = log m ++ [mkLog ERROR [Lit "Failed to save configuration: ";
                                   FmtExn OSError]]) as Hfailed.
  { by intros ->. }
  split; [done|].
  split; [by destruct (writable (disk m) path)|].
  split; [by destruct (writable (disk m) path)|].
  split; [exact Hfailed|].
  split; [|split; [|split]].
  - intros ->. by apply Hfailed.
  - intros Hdir. apply Hfailed. unfold writable, is_directory. rewrite Hdir.
    destruct (split_path path) as [dir name]. apply andb_false_r.
  - intros dir name -> Hname Hdir Hmissing. apply Hfailed. unfold writable.
    rewrite (split_path_join dir name Hname), Hmissing.
    destruct (String.eqb_spec dir ""); [done|].
    by rewrite andb_false_r.
  - by intros ->.
Qed.

(** X16. A saved configuration survives a restart: a manager constructed
    from the file [save_config] wrote holds a configuration equal to the
    one that was saved, with the same definitions one for one, and no
    instance yet, provided the destination can be opened for writing and
    the document the YAML library dumps for this configuration loads as
    an equal value. *)
Theorem saved_config_survives_restart m path doc :
  writable (disk m) path = true →
  yaml_safe_load (yaml_dump (config m)) = inr doc →
  py_equal (config m) doc = true →
  let restarted := init (Some path) (disk (snd (save_config path m))) in
  config restarted = doc ∧
  (∀ items, py_get (config m) "honeypots" (PList []) = inr (PList items) →
            Forall2 same_fields items (definitions restarted)) ∧
  honeypots restarted = ∅ ∧
  log restarted = [mkLog INFO [Lit "Configuration loaded from ";
                               Fmt (PStr path)]].
Proof.
  intros Hopen Hdoc Heq restarted.
  assert (path ≠ "") as Hpath by (by intros ->).
  assert (disk (snd (save_config path m)) !! path
          = Some (File (yaml_dump (config m)))) as Hfile.
  { rewrite save_config_run, Hopen. simpl_state. apply lookup_insert_eq. }
  subst restarted. unfold init, path_exists. rewrite Hfile.
  rewrite bool_decide_eq_true_2 by eauto.
  assert (truthy (PStr path) = true) as ->.
  { cbn. by destruct (String.eqb_spec path ""). }
  cbn [andb].
  rewrite (load_config_parsed _ path _ doc) by done.
  simpl_state. repeat split; try done.
  intros items Hget. by eapply py_equal_definitions.
Qed.

(** *** Starting everything, continued *)

Lemma of_key_to_key v k : to_key v = Some k → v = of_key k.
Proof. destruct v; intros [= <-]; done. Qed.

Lemma configured_state m : snd (configured m) = m.
Proof.
  unfold configured. run_M.
  by destruct (py_get (config m) "honeypots" (PList [])).
Qed.

Lemma ensure_created_mono d m : honeypots m ⊆ honeypots (snd (ensure_created d m)).
Proof.
  unfold ensure_created. run_M.
  destruct (py_getitem d "id") as [e|v]; [done|].
  destruct (to_key v) as [k|] eqn:Hk; [|done].
  destruct (honeypots m !! k); [done|].
  destruct (py_getitem d "type") as [e|ty]; [done|].
  destruct (py_get d "ip" (PStr "0.0.0.0")) as [e|ip]; [done|].
  destruct (py_get d "port" (PInt 0)) as [e|port]; [done|].
  destruct (py_get d "options" (PDict [])) as [e|opts]; [done|].
  destruct (keyword_arguments opts) as [e|options]; [done|].
  destruct (create_honeypot_returns m v k ty ip port options Hk)
    as (r & m' & -> & Hsub). done.
Qed.

Lemma for_each_ensure_created_mono rest m :
  honeypots m ⊆ honeypots (snd (for_each rest ensure_created m)).
Proof.
  revert m. induction rest as [|d rest IH]; intros m; [done|].
  cbn [for_each]. unfold bind at 1.
  pose proof (ensure_created_mono d m) as Hstep.
  destruct (ensure_created d m) as [[e|[]] m']; cbn [snd] in *; [done|].
  etrans; [exact Hstep|apply IH].
Qed.

Lemma create_configured_mono m :
  honeypots m ⊆ honeypots (snd (create_configured m)).
Proof.
  unfold create_configured. unfold bind.
  pose proof (configured_state m) as Hstate.
  destruct (configured m) as [[e|items] m']; cbn [snd] in Hstate; subst m';
    [done|]. apply for_each_ensure_created_mono.
Qed.

(** X17. [start_all] never changes the configuration: not when it has to
    create instances, and not when it raises. *)
Theorem start_all_keeps_config m :
  config (snd (start_all m)) = config m.
Proof.
  rewrite start_all_run.
  pose proof (create_configured_config (set_running true m)) as Hcfg.
  destruct (create_configured (set_running true m)) as [[e|[]] m1]; done.
Qed.

(** X18. [start_all] never drops or replaces an instance: whatever was
    registered is registered afterwards, with the same fields, either in
    the state it had or [Active]; this holds also when [start_all]
    raises. *)
Theorem start_all_keeps_instances m k h :
  honeypots m !! k = Some h →
  honeypots (snd (start_all m)) !! k = Some h ∨
  honeypots (snd (start_all m)) !! k = Some (set_status Active h).
Proof.
  intros Hreg. rewrite start_all_run.
  pose proof (create_configured_mono (set_running true m)) as Hsub.
  assert (∀ m1, honeypots (set_running true m) ⊆ honeypots m1 →
                honeypots m1 !! k = Some h) as Hkeep.
  { intros m1 Hm1. by eapply lookup_weaken. }
  destruct (create_configured (set_running true m)) as [[e|[]] m1];
    cbn [snd] in *.
  - left. by apply Hkeep.
  - simpl_state. rewrite lookup_fmap, (Hkeep m1 Hsub).
    cbn [fmap option_fmap option_map]. rewrite run_task_start.
    destruct (start_raises h); [by left|by right].
Qed.

(** X19. A definition from which no id can be read stops [start_all]
    before anything is started: when the first configured definition has
    no ['id'] (or is not a record), the exception of the lookup reaches
    the caller, no instance is created and no task is made, although the
    running flag is already set. *)
Theorem start_all_stops_at_bad_definition m d rest e :
  fst (configured m) = inr (d :: rest) →
  py_getitem d "id" = inl e →
  start_all m = (inl e, set_running true m).
Proof.
  intros Hitems Hid. rewrite start_all_run. unfold create_configured, bind.
  pose proof (configured_config (set_running true m) m eq_refl) as Hsame.
  pose proof (configured_state (set_running true m)) as Hstate.
  destruct (configured (set_running true m)) as [r m1].
  cbn [fst snd] in *. subst m1. rewrite Hsame, Hitems.
  cbn [for_each]. unfold bind, ensure_created, lift. by rewrite Hid.
Qed.

(** An option named like a parameter of [create_honeypot] cannot be
    given by keyword. *)
Lemma keyword_arguments_clash opts key v :
  (key, v) ∈ opts →
  key ∈ create_honeypot_parameters →
  keyword_arguments (PDict opts) = inl TypeError.
Proof.
  intros Hin Hkey. unfold keyword_arguments.
  destruct (forallb _ opts) eqn:Hall; [|done].
  rewrite forallb_forall in Hall.
  specialize (Hall (key, v) (proj1 (list_elem_of_In _ _) Hin)).
  apply negb_true_iff in Hall.
  assert (existsb (String.eqb key) create_honeypot_parameters = true) as Hex.
  { apply existsb_exists. exists key. split.
    - by apply list_elem_of_In.
    - apply String.eqb_refl. }
  cbn [fst] in Hall. congruence.
Qed.

(** X20. What the first loop of [start_all] does with a record that has
    an id that is not registered and a type.  The options are given to
    [create_honeypot] by keyword: when the record's ['options'] is not a
    mapping, or has a key that names a parameter of [create_honeypot]
    ([self], [honeypot_id], [honeypot_type], [ip], [port]), the call
    raises [TypeError] before [create_honeypot] runs, and nothing is
    registered.  Otherwise, when the upper-cased type selects a class
    whose constructor accepts the arguments, an [Inactive] instance of
    that class is registered under the id, with the address, the port and
    the options of the record or, where the record has none,
    ["0.0.0.0"], [0] and no options. *)
Theorem ensure_created_defaults m entries honeypot_id k ty :
  dict_lookup entries "id" = Some honeypot_id →
  to_key honeypot_id = Some k →
  honeypots m !! k = None →
  dict_lookup entries "type" = Some (PStr ty) →
  let ip := default (PStr "0.0.0.0") (dict_lookup entries "ip") in
  let port := default (PInt 0) (dict_lookup entries "port") in
  let given := default (PDict []) (dict_lookup entries "options") in
  (∀ e, keyword_arguments given = inl e →
        ensure_created (PDict entries) m = (inl e, m)) ∧
  (∀ opts key v,
     given = PDict opts → (key, v) ∈ opts → key ∈ create_honeypot_parameters →
     ensure_created (PDict entries) m = (inl TypeError, m)) ∧
  (∀ c opts,
     class_of_tag (upper ty) = Some c →
     keyword_arguments given = inr opts →
     constructor_raises c honeypot_id ip port opts = None →
     given = PDict opts ∧
     ∃ m', ensure_created (PDict entries) m = (inr tt, m') ∧
           honeypots m' =
             <[k := mkHoneypot c honeypot_id ip port opts Inactive]>
               (honeypots m)).
Proof.
  intros Hid Hk Hfresh Hty ip port given.
  assert (∀ e, keyword_arguments given = inl e →
               ensure_created (PDict entries) m = (inl e, m)) as Hraise.
  { intros e He. unfold ensure_created. run_M. cbn [py_getitem py_get].
    rewrite Hid, Hk, Hfresh, Hty. fold ip port given. by rewrite He. }
  split; [exact Hraise|]. split.
  - intros opts key v Hgiven Hin Hkey. apply Hraise. rewrite Hgiven.
    by eapply keyword_arguments_clash.
  - intros c opts Hc Hopts Hctor. split.
    { unfold keyword_arguments in Hopts. destruct given as [| | | |d]; try done.
      destruct (forallb _ d); by simplify_eq. }
    unfold ensure_created. run_M. cbn [py_getitem py_get].
    rewrite Hid, Hk, Hfresh, Hty. fold ip port given. rewrite Hopts.
    destruct (create_honeypot_returns m honeypot_id k (PStr ty) ip port opts Hk)
      as (r & m' & Hrun & _).
    pose proof (of_key_to_key _ _ Hk) as ->.
    destruct (create_honeypot_selected m k ty ip port opts c Hfresh Hc Hctor)
      as [Hreg _].
    rewrite Hrun in Hreg |- *. eauto.
Qed.

Lemma ensure_created_startable d m :
  startable d →
  ∃ m', ensure_created d m = (inr tt, m') ∧
        honeypots m ⊆ honeypots m' ∧
        ∃ honeypot_id k, py_getitem d "id" = inr honeypot_id ∧
                         to_key honeypot_id = Some k ∧
                         is_Some (honeypots m' !! k).
Proof.
  intros (i & k & ty & c & ip & port & o & opts &
          Hid & Hk & Hty & Hc & Hip & Hport & Ho & Hopts & Hctor).
  pose proof (ensure_created_mono d m) as Hsub.
  unfold ensure_created in *. run_M. rewrite Hid, Hk in *.
  destruct (honeypots m !! k) as [h|] eqn:Hreg.
  - eexists. split; [done|]. split; [done|]. exists i, k. eauto.
  - rewrite Hty, Hip, Hport, Ho, Hopts in *.
    destruct (create_honeypot_returns m i k (PStr ty) ip port opts Hk)
      as (r & m' & Hrun & _).
    pose proof (of_key_to_key _ _ Hk) as ->.
    destruct (create_honeypot_selected m k ty ip port opts c Hreg Hc Hctor)
      as [Hnew _].
    rewrite Hrun in Hsub, Hnew |- *. cbn [snd] in *.
    eexists. split; [done|]. split; [done|]. exists (of_key k), k.
    split; [done|]. split; [done|]. rewrite Hnew, lookup_insert_eq. eauto.
Qed.

Lemma for_each_startable rest m :
  Forall startable rest →
  ∃ m', for_each rest ensure_created m = (inr tt, m') ∧
        honeypots m ⊆ honeypots m' ∧
        ∀ d, d ∈ rest →
             ∃ honeypot_id k, py_getitem d "id" = inr honeypot_id ∧
                              to_key honeypot_id = Some k ∧
                              is_Some (honeypots m' !! k).
Proof.
  intros Hall. revert m. induction Hall as [|d rest Hd _ IH]; intros m.
  - exists m. split; [done|]. split; [done|]. by intros d Hin%elem_of_nil.
  - cbn [for_each]. unfold bind at 1.
    destruct (ensure_created_startable d m Hd)
      as (m1 & -> & Hsub1 & i & k & Hid & Hk & Hin1).
    destruct (IH m1) as (m' & -> & Hsub & Hrest).
    exists m'. split; [done|]. split; [by etrans|].
    intros d' [->|Hin]%elem_of_cons; [|by apply Hrest].
    exists i, k. split; [done|]. split; [done|].
    by eapply lookup_weaken_is_Some.
Qed.

(** X21. When the configuration can be iterated and every definition in
    it can be turned into an instance, [start_all] returns normally, and
    for every definition an instance is registered under its id and a
    start task was made for it. *)
Theorem start_all_covers_definitions m items :
  fst (configured m) = inr items →
  Forall startable items →
  ∃ results m',
    start_all m = (inr results, m') ∧
    ∀ d, d ∈ items →
         ∃ honeypot_id k, py_getitem d "id" = inr honeypot_id ∧
                          to_key honeypot_id = Some k ∧
                          is_Some (honeypots m' !! k) ∧
                          ∃ r, (k, r) ∈ results.
Proof.
  intros Hitems Hall. rewrite start_all_run. unfold create_configured, bind.
  pose proof (configured_config (set_running true m) m eq_refl) as Hsame.
  pose proof (configured_state (set_running true m)) as Hstate.
  destruct (configured (set_running true m)) as [r m0].
  cbn [fst snd] in *. subst m0. rewrite Hsame, Hitems.
  destruct (for_each_startable items (set_running true m) Hall)
    as (m1 & -> & _ & Hreg).
  cbn zeta. eexists _, _. split; [done|].
  intros d Hin. destruct (Hreg d Hin) as (i & k & Hid & Hk & [h Hh]).
  exists i, k. split; [done|]. split; [done|]. simpl_state. split.
  - rewrite lookup_fmap, Hh. eauto.
  - exists (snd (run_task hp_start h)). unfold results_of.
    apply list_elem_of_fmap. exists (k, h). split; [done|].
    by apply elem_of_map_to_list.
Qed.

End Properties.

(** ** The honeypot table of the dashboard *)

Section DashboardProperties.
Context {A : Type}.
Implicit Types (prev : list (Dashboard.row A)) (hp : Dashboard.row A).

(** X22. Toggling keeps the table in shape: the same number of rows, the
    same ids and other fields in the same order, and every row with
    another id exactly as it was; only the status of the rows with the
    given id can change. *)
Theorem toggle_touches_status_of_id_only id prev :
  length (Dashboard.toggleHoneypotStatus id prev) = length prev ∧
  map Dashboard.row_id (Dashboard.toggleHoneypotStatus id prev)
    = map Dashboard.row_id prev ∧
  map Dashboard.row_fields (Dashboard.toggleHoneypotStatus id prev)
    = map Dashboard.row_fields prev ∧
  ∀ i hp, prev !! i = Some hp → Dashboard.row_id hp ≠ id →
          Dashboard.toggleHoneypotStatus id prev !! i = Some hp.
Proof.
  unfold Dashboard.toggleHoneypotStatus. split; [by rewrite length_map|].
  split; [|split].
  - induction prev as [|hp prev IH]; [done|]. cbn. rewrite IH.
    by destruct (String.eqb (Dashboard.row_id hp) id).
  - induction prev as [|hp prev IH]; [done|]. cbn. rewrite IH.
    by destruct (String.eqb (Dashboard.row_id hp) id).
  - intros i hp Hi Hne. change map with (@fmap list _) at 1.
    rewrite list_lookup_fmap, Hi. cbn.
    by destruct (String.eqb_spec (Dashboard.row_id hp) id).
Qed.

(** X23. Toggling twice gives the table back when the rows with that id
    have the status ["Active"] or ["Inactive"].  A row with any other
    status becomes ["Active"] at the first toggle, so it does not come
    back. *)
Theorem toggle_twice id prev :
  (∀ hp, hp ∈ prev → Dashboard.row_id hp = id →
         Dashboard.row_status hp = "Active" ∨
         Dashboard.row_status hp = "Inactive") →
  Dashboard.toggleHoneypotStatus id (Dashboard.toggleHoneypotStatus id prev)
    = prev.
Proof.
  unfold Dashboard.toggleHoneypotStatus.
  induction prev as [|hp prev IH]; intros Hst; [done|].
  cbn [map]. rewrite IH by (intros hp' Hin; apply Hst; by right).
  f_equal. destruct (String.eqb_spec (Dashboard.row_id hp) id) as [Heq|Hne].
  - cbn [Dashboard.row_id]. destruct (String.eqb_spec (Dashboard.row_id hp) id);
      [|done].
    destruct (Hst hp) as [Hs|Hs]; [by left|done| |];
      destruct hp as [i st f]; cbn in Hs |- *; by subst.
  - by destruct (String.eqb_spec (Dashboard.row_id hp) id).
Qed.

(** X24. The count of active rows after a toggle: the rows with the given
    id that were ["Active"] leave the count and the rows with that id that
    were not enter it. *)
Theorem toggle_active_count id prev :
  (Dashboard.activeHoneypots (Dashboard.toggleHoneypotStatus id prev)
   + length (filter (λ hp, Dashboard.row_id hp = id ∧
                           Dashboard.row_status hp = "Active") prev)
   = Dashboard.activeHoneypots prev
     + length (filter (λ hp, Dashboard.row_id hp = id ∧
                             Dashboard.row_status hp ≠ "Active") prev))%nat.
Proof.
  unfold Dashboard.activeHoneypots, Dashboard.toggleHoneypotStatus.
  induction prev as [|hp prev IH]; [done|].
  cbn [map]. rewrite !filter_cons.
  destruct (String.eqb_spec (Dashboard.row_id hp) id) as [Heq|Hne];
    destruct (String.eqb_spec (Dashboard.row_status hp) "Active") as [Hs|Hs];
    cbn [Dashboard.row_status];
    repeat case_decide; cbn [length];
    first [lia | exfalso; intuition congruence].
Qed.

End DashboardProperties.

(** * The properties on concrete runs *)

Lemma create_honeypot_twice_witness :
  ∃ k, to_key (PStr "x") = Some k ∧
       honeypots (snd (@create_honeypot sample_env (PStr "x") (PStr "Ssh")
                         (PStr "0.0.0.0") (PInt 2200) [] fresh)) !! k
         = Some (mkHoneypot SSHHoneypot (PStr "x") (PStr "0.0.0.0") (PInt 2200) []
                   Inactive) ∧
       @create_honeypot sample_env (PStr "x") (PStr "web") (PStr "127.0.0.1")
         (PInt 8000) [("server_type", PStr "nginx")]
         (snd (@create_honeypot sample_env (PStr "x") (PStr "Ssh")
                 (PStr "0.0.0.0") (PInt 2200) [] fresh))
       = (inr (Some (mkHoneypot SSHHoneypot (PStr "x") (PStr "0.0.0.0")
                       (PInt 2200) [] Inactive)),
          add_log (mkLog WARNING [Lit "Honeypot with ID "; Fmt (PStr "x");
                                  Lit " already exists"])
            (snd (@create_honeypot sample_env (PStr "x") (PStr "Ssh")
                    (PStr "0.0.0.0") (PInt 2200) [] fresh))) ∧
       honeypots
         (snd (@create_honeypot sample_env (PStr "x") (PStr "web")
                 (PStr "127.0.0.1") (PInt 8000) [("server_type", PStr "nginx")]
                 (snd (@create_honeypot sample_env (PStr "x") (PStr "Ssh")
                         (PStr "0.0.0.0") (PInt 2200) [] fresh))))
       = honeypots (snd (@create_honeypot sample_env (PStr "x") (PStr "Ssh")
                           (PStr "0.0.0.0") (PInt 2200) [] fresh)).
Proof.
  apply (@create_honeypot_twice sample_env fresh (PStr "x") (PStr "Ssh")
           (PStr "0.0.0.0") (PInt 2200) []).
  vm_compute. reflexivity.
Defined.

(** C2 as stated fails: among the definitions of a manager constructed
    without a source, the one with id ["ssh-honeypot-1"] is not on port 22
    and the one with id ["web-honeypot-1"] is not on port 80. *)
Lemma default_ports_are_not_22_and_80 :
  ¬ (∃ v, v ∈ definitions fresh ∧
          py_getitem v "id" = inr (PStr "ssh-honeypot-1") ∧
          py_getitem v "port" = inr (PInt 22)) ∧
  ¬ (∃ v, v ∈ definitions fresh ∧
          py_getitem v "id" = inr (PStr "web-honeypot-1") ∧
          py_getitem v "port" = inr (PInt 80)).
Proof.
  split; intros (v & Hin & Hid & Hport);
    change (definitions fresh)
      with (match default_config with
            | PDict [(_, PList l)] => l
            | _ => []
            end) in Hin;
    cbn [default_config] in Hin;
    repeat (apply elem_of_cons in Hin as [->|Hin]; [by vm_compute in Hport|]);
    by apply elem_of_nil in Hin.
Qed.

Lemma fresh_manager_defaults_witness :
  ∃ results m',
    @start_all sample_env fresh = (inr results, m') ∧
    honeypots m' =
      <[KStr "web-honeypot-1" := set_status Active default_web]>
        (<[KStr "ssh-honeypot-1" := set_status Active default_ssh]> ∅) ∧
    ∃ snapshots,
      fst (@get_honeypot_status sample_env PNone m') = inr (StatusOfAll snapshots) ∧
      size snapshots = 2%nat.
Proof.
  apply (proj2 (proj2 (@fresh_manager_defaults sample_env ∅)));
    vm_compute; reflexivity.
Defined.

(** C3, on a run: after one [start_all] both default instances are
    [Active], and a second [start_all] makes a start task for each of them
    again: it announces and collects two starts, one per instance, so the
    manager does not skip an instance that is already [Active]. *)
Theorem start_all_restarts_active :
  honeypots started_once !! KStr "ssh-honeypot-1"
    = Some (set_status Active default_ssh) ∧
  honeypots started_once !! KStr "web-honeypot-1"
    = Some (set_status Active default_web) ∧
  ∃ results m',
    @start_all sample_env started_once = (inr results, m') ∧
    results ≡ₚ [(KStr "ssh-honeypot-1", Done); (KStr "web-honeypot-1", Done)] ∧
    drop (length (log started_once)) (log m')
      ≡ₚ [mkLog INFO [Lit "Starting honeypot "; Fmt (PStr "ssh-honeypot-1")];
          mkLog INFO [Lit "Starting honeypot "; Fmt (PStr "web-honeypot-1")]] ∧
    honeypots m' = honeypots started_once.
Proof.
  split; [vm_compute; reflexivity|]. split; [vm_compute; reflexivity|].
  eexists _, _. split; [vm_compute; reflexivity|].
  split; [apply perm_swap|]. split; [apply perm_swap|].
  vm_compute. reflexivity.
Qed.

Lemma start_all_isolates_failures_witness :
  ∃ results m2,
    @start_all sample_env two_more = (inr results, m2) ∧
    (KStr "bad", Failed (ServiceError "cannot bind")) ∈ results ∧
    (KStr "good", Done) ∈ results ∧
    honeypots m2 !! KStr "good"
      = Some (mkHoneypot WebHoneypot (PStr "good") (PStr "0.0.0.0") (PInt 8081) []
                Active) ∧
    honeypots m2 !! KStr "bad"
      = Some (mkHoneypot SSHHoneypot (PStr "bad") (PStr "0.0.0.0") (PInt 0) []
                Inactive) ∧
    length results = 4%nat.
Proof.
  destruct (@start_all_isolates_failures sample_env two_more
              (snd (@create_configured sample_env (set_running true two_more))))
    as (results & m2 & Hrun & Hlen & Heach).
  { vm_compute. reflexivity. }
  exists results, m2. split; [exact Hrun|].
  pose proof (Heach (KStr "bad")
                (mkHoneypot SSHHoneypot (PStr "bad") (PStr "0.0.0.0") (PInt 0) []
                   Inactive) ltac:(vm_compute; reflexivity)) as [_ Hbad].
  pose proof (Hbad (ServiceError "cannot bind") ltac:(vm_compute; reflexivity))
    as [Hbad1 Hbad2].
  pose proof (Heach (KStr "good")
                (mkHoneypot WebHoneypot (PStr "good") (PStr "0.0.0.0") (PInt 8081)
                   [] Inactive) ltac:(vm_compute; reflexivity)) as [Hgood _].
  pose proof (Hgood ltac:(vm_compute; reflexivity)) as [Hgood1 Hgood2].
  repeat split; assumption.
Defined.

Lemma start_honeypot_cases_witness :
  @start_honeypot sample_env (PStr "ssh-honeypot-1") started_once
    = (inr true, started_once) ∧
  @start_honeypot sample_env (PStr "nobody") fresh
    = (inr false,
       add_log (mkLog WARNING [Lit "Honeypot with ID "; Fmt (PStr "nobody");
                               Lit " does not exist"]) fresh) ∧
  @start_honeypot sample_env (PStr "good") two_more
    = (inr true,
       add_log (mkLog INFO [Lit "Started honeypot "; Fmt (PStr "good")])
         (set_honeypots
            (insert (KStr "good")
               (mkHoneypot WebHoneypot (PStr "good") (PStr "0.0.0.0") (PInt 8081)
                  [] Active)) two_more)) ∧
  @start_honeypot sample_env (PStr "bad") two_more
    = (inr false,
       add_log (mkLog ERROR [Lit "Failed to start honeypot "; Fmt (PStr "bad");
                             Lit ": "; FmtExn (ServiceError "cannot bind")])
         two_more).
Proof.
  split; [|split; [|split]].
  - apply (proj1 (@start_honeypot_cases sample_env started_once
                    (KStr "ssh-honeypot-1")) (set_status Active default_ssh));
      vm_compute; reflexivity.
  - apply (proj1 (proj2 (@start_honeypot_cases sample_env fresh (KStr "nobody"))));
      vm_compute; reflexivity.
  - apply (proj1 (proj2 (proj2 (@start_honeypot_cases sample_env two_more
                                  (KStr "good"))))
             (mkHoneypot WebHoneypot (PStr "good") (PStr "0.0.0.0") (PInt 8081)
                [] Inactive));
      [vm_compute; reflexivity|discriminate|vm_compute; reflexivity].
  - apply (proj1 (proj2 (proj2 (proj2 (@start_honeypot_cases sample_env two_more
                                         (KStr "bad")))))
             (mkHoneypot SSHHoneypot (PStr "bad") (PStr "0.0.0.0") (PInt 0)
                [] Inactive));
      [vm_compute; reflexivity|discriminate|vm_compute; reflexivity].
Defined.

Lemma load_config_malformed_witness :
  disk (@init sample_env None broken_disk) !! "decoys.yaml"
    = Some (File "honeypots: [") ∧
  @yaml_safe_load sample_env "honeypots: [" = inl YAMLError ∧
  definitions (@init sample_env None broken_disk) ≠ [] ∧
  definitions (snd (@load_config sample_env "decoys.yaml"
                      (@init sample_env None broken_disk))) = [].
Proof.
  split; [vm_compute; reflexivity|].
  split; [vm_compute; reflexivity|].
  split; [vm_compute; discriminate|].
  apply (@load_config_malformed sample_env (@init sample_env None broken_disk)
           "decoys.yaml" "honeypots: [" YAMLError);
    vm_compute; reflexivity.
Defined.

(** C7 as stated fails: a manager constructed from an existing source
    whose text cannot be parsed holds the empty definition set, not the
    built-in default. *)
Lemma unparsable_source_gives_empty_set :
  broken_disk !! "decoys.yaml" = Some (File "honeypots: [") ∧
  @yaml_safe_load sample_env "honeypots: [" = inl YAMLError ∧
  definitions (@init sample_env (Some "decoys.yaml") broken_disk) = [] ∧
  config (@init sample_env (Some "decoys.yaml") broken_disk) ≠ default_config.
Proof.
  repeat split; try (vm_compute; reflexivity). vm_compute. discriminate.
Qed.

Lemma init_definition_set_witness :
  config (@init sample_env (Some "missing.yaml") broken_disk) = default_config ∧
  config (@init sample_env None broken_disk) = default_config ∧
  definitions (@init sample_env (Some "decoys.yaml") broken_disk) = [].
Proof.
  split; [|split].
  - apply (proj1 (@init_definition_set sample_env (Some "missing.yaml") broken_disk)).
    right. exists "missing.yaml". split; vm_compute; reflexivity.
  - apply (proj1 (@init_definition_set sample_env None broken_disk)).
    left. reflexivity.
  - apply (proj2 (@init_definition_set sample_env (Some "decoys.yaml") broken_disk)
             "decoys.yaml" "honeypots: [" YAMLError);
      [reflexivity|discriminate|vm_compute; reflexivity|vm_compute; reflexivity].
Defined.


(** C9, on a run: a manager constructed from an empty configuration file
    holds [None] as its configuration.  One [create_honeypot] with a
    supported type then returns [None] and logs that the creation failed,
    yet the instance is registered, and no definition with its id is
    stored: the registry holds an instance without a definition. *)
Theorem create_leaves_instance_without_definition :
  config after_empty_file = PNone ∧
  honeypots after_empty_file = ∅ ∧
  ∃ m',
    @create_honeypot sample_env (PStr "x") (PStr "ssh") (PStr "0.0.0.0")
      (PInt 2200) [] after_empty_file = (inr None, m') ∧
    m' = @run sample_env
           [Create (PStr "x") (PStr "ssh") (PStr "0.0.0.0") (PInt 2200) []]
           after_empty_file ∧
    honeypots m' !! KStr "x"
      = Some (mkHoneypot SSHHoneypot (PStr "x") (PStr "0.0.0.0") (PInt 2200) []
                Inactive) ∧
    last (log m')
      = Some (mkLog ERROR [Lit "Failed to create honeypot: ";
                           FmtExn AttributeError]) ∧
    definitions m' = [] ∧
    count_definitions (KStr "x") m' = 0%nat ∧
    ¬ registry_backed m'.
Proof.
  split; [vm_compute; reflexivity|]. split; [vm_compute; reflexivity|].
  eexists. split; [vm_compute; reflexivity|].
  split; [vm_compute; reflexivity|].
  split; [vm_compute; reflexivity|].
  split; [vm_compute; reflexivity|].
  split; [vm_compute; reflexivity|].
  split; [vm_compute; reflexivity|].
  intros Hbacked.
  specialize (Hbacked (KStr "x")
                (mkHoneypot SSHHoneypot (PStr "x") (PStr "0.0.0.0") (PInt 2200) []
                   Inactive) ltac:(vm_compute; reflexivity)).
  vm_compute in Hbacked. discriminate.
Qed.

Lemma registry_backed_invariant_witness :
  registry_backed
    (@run sample_env
       [Create (PStr "x") (PStr "ssh") (PStr "0.0.0.0") (PInt 2200) [];
        Create (PStr "ssh-honeypot-1") (PStr "SSH") (PStr "0.0.0.0") (PInt 2222) [];
        Remove true (PStr "x");
        Create (PStr "x") (PStr "web") (PStr "0.0.0.0") (PInt 8000) [];
        Remove false (PStr "ssh-honeypot-1")]
       fresh) ∧
  size (honeypots
          (@run sample_env
             [Create (PStr "x") (PStr "ssh") (PStr "0.0.0.0") (PInt 2200) [];
              Create (PStr "ssh-honeypot-1") (PStr "SSH") (PStr "0.0.0.0")
                (PInt 2222) [];
              Remove true (PStr "x");
              Create (PStr "x") (PStr "web") (PStr "0.0.0.0") (PInt 8000) [];
              Remove false (PStr "ssh-honeypot-1")]
             fresh)) = 1%nat.
Proof.
  split.
  - apply (@registry_backed_invariant sample_env fresh).
    apply (@fresh_manager_consistent sample_env).
  - vm_compute. reflexivity.
Defined.

Lemma type_tag_dispatch_witness :
  honeypots (snd (@create_honeypot sample_env (PStr "a") (PStr "Ssh")
                    (PStr "0.0.0.0") (PInt 2200) [] fresh))
    = <[KStr "a" := mkHoneypot SSHHoneypot (PStr "a") (PStr "0.0.0.0")
                      (PInt 2200) [] Inactive]> (honeypots fresh) ∧
  honeypots (snd (@create_honeypot sample_env (PStr "b") (PStr "web")
                    (PStr "0.0.0.0") (PInt 8000) [] fresh))
    = <[KStr "b" := mkHoneypot WebHoneypot (PStr "b") (PStr "0.0.0.0")
                      (PInt 8000) [] Inactive]> (honeypots fresh) ∧
  @create_honeypot sample_env (PStr "c") (PStr "ftp") (PStr "0.0.0.0")
    (PInt 2100) [] fresh
    = (inr None,
       add_log (mkLog ERROR [Lit "Unsupported honeypot type: "; Fmt (PStr "ftp")])
         fresh).
Proof.
  split; [|split].
  - apply (proj1 (@type_tag_dispatch sample_env fresh (KStr "a") "Ssh"
                    (PStr "0.0.0.0") (PInt 2200) []
                    ltac:(vm_compute; reflexivity)));
      vm_compute; reflexivity.
  - apply (proj1 (proj2 (@type_tag_dispatch sample_env fresh (KStr "b") "web"
                           (PStr "0.0.0.0") (PInt 8000) []
                           ltac:(vm_compute; reflexivity))));
      vm_compute; reflexivity.
  - apply (proj2 (proj2 (@type_tag_dispatch sample_env fresh (KStr "c") "ftp"
                           (PStr "0.0.0.0") (PInt 2100) []
                           ltac:(vm_compute; reflexivity))));
      vm_compute; discriminate.
Defined.

(** * The further properties on concrete runs *)

Lemma create_honeypot_raises_only_unhashable_witness :
  @create_honeypot sample_env (PList []) (PStr "ssh") (PStr "0.0.0.0")
    (PInt 2200) [] fresh = (inl TypeError, fresh) ∧
  ∃ r m', @create_honeypot sample_env (PStr "x") (PStr "ftp") (PStr "0.0.0.0")
            (PInt 2100) [] fresh = (inr r, m') ∧
          honeypots fresh ⊆ honeypots m'.
Proof.
  split.
  - apply (proj1 (@create_honeypot_raises_only_unhashable sample_env fresh
                    (PList []) (PStr "ssh") (PStr "0.0.0.0") (PInt 2200) [])).
    reflexivity.
  - apply (proj2 (@create_honeypot_raises_only_unhashable sample_env fresh
                    (PStr "x") (PStr "ftp") (PStr "0.0.0.0") (PInt 2100) [])
             (KStr "x")).
    reflexivity.
Defined.

Lemma create_honeypot_construction_fails_witness :
  @create_honeypot sample_env (PStr "x") (PInt 7) (PStr "0.0.0.0") (PInt 2200)
    [] fresh
  = (inr None,
     add_log (mkLog ERROR [Lit "Failed to create honeypot: ";
                           FmtExn AttributeError]) fresh).
Proof.
  apply (@create_honeypot_construction_fails sample_env fresh (KStr "x")
           (PInt 7) (PStr "0.0.0.0") (PInt 2200) [] AttributeError).
  - vm_compute. reflexivity.
  - left. reflexivity.
Defined.

Lemma create_honeypot_registers_before_configuration_witness :
  config after_empty_document = PNone ∧
  fst (@create_honeypot sample_env (PStr "x") (PStr "ssh") (PStr "0.0.0.0")
         (PInt 2200) [] after_empty_document) = inr None ∧
  honeypots (snd (@create_honeypot sample_env (PStr "x") (PStr "ssh")
                    (PStr "0.0.0.0") (PInt 2200) [] after_empty_document))
    = <[KStr "x" := mkHoneypot SSHHoneypot (PStr "x") (PStr "0.0.0.0")
                      (PInt 2200) [] Inactive]>
        (honeypots after_empty_document).
Proof.
  split; [vm_compute; reflexivity|].
  destruct (@create_honeypot_registers_before_configuration sample_env
              after_empty_document (KStr "x") "ssh" (PStr "0.0.0.0") (PInt 2200)
              [] SSHHoneypot AttributeError)
    as (Hret & Hreg & _); try (vm_compute; reflexivity).
  split; [exact Hret|exact Hreg].
Defined.

Lemma one_more_consistent : consistent one_more.
Proof.
  apply (@consistent_create sample_env), (@fresh_manager_consistent sample_env).
Qed.

Lemma remove_honeypot_outcome_witness :
  fst (remove_honeypot false (PStr "x") one_more) = inr true ∧
  honeypots (snd (remove_honeypot false (PStr "x") one_more))
    = delete (KStr "x") (honeypots one_more) ∧
  fst (remove_honeypot false (PStr "ssh-honeypot-1") started_once)
    = inr false.
Proof.
  destruct (remove_honeypot_outcome one_more false (PStr "x")
              (KStr "x") (proj1 one_more_consistent) eq_refl)
    as (b & m' & Hrun & Hiff & _ & Hgone).
  assert (b = true) as ->.
  { apply Hiff. eexists. split; [vm_compute; reflexivity|]. discriminate. }
  rewrite Hrun. split; [reflexivity|]. split; [apply Hgone; reflexivity|].
  vm_compute. reflexivity.
Defined.

Lemma remove_honeypot_frame_witness :
  honeypots (snd (remove_honeypot true (PStr "x") one_more))
    !! KStr "x" = None ∧
  count_definitions (KStr "x")
    (snd (remove_honeypot true (PStr "x") one_more)) = 0%nat ∧
  count_definitions (KStr "ssh-honeypot-1")
    (snd (remove_honeypot true (PStr "x") one_more))
    = count_definitions (KStr "ssh-honeypot-1") one_more.
Proof.
  destruct (remove_honeypot_frame one_more true (PStr "x") (KStr "x")
              (proj1 one_more_consistent) eq_refl)
    as (Hgone & Hnone & Hothers); [vm_compute; reflexivity|].
  split; [exact Hgone|]. split; [exact Hnone|].
  apply (Hothers (KStr "ssh-honeypot-1")). discriminate.
Defined.

Lemma create_then_remove_restores_witness :
  fst (@create_honeypot sample_env (PStr "x") (PStr "Ssh") (PStr "0.0.0.0")
         (PInt 2200) [] fresh)
    = inr (Some (mkHoneypot SSHHoneypot (PStr "x") (PStr "0.0.0.0") (PInt 2200)
                   [] Inactive)) ∧
  fst (remove_honeypot false (PStr "x") one_more) = inr true ∧
  honeypots (snd (remove_honeypot false (PStr "x") one_more))
    = honeypots fresh ∧
  definitions (snd (remove_honeypot false (PStr "x") one_more))
    = definitions fresh.
Proof.
  apply (@create_then_remove_restores sample_env fresh false (KStr "x") "Ssh"
           (PStr "0.0.0.0") (PInt 2200) [] SSHHoneypot);
    try (vm_compute; reflexivity).
  apply (proj1 (@fresh_manager_consistent sample_env ∅)).
Defined.


Lemma stop_all_isolates_failures_witness :
  ∃ results m',
    @stop_all sample_env (snd (@start_honeypot sample_env (PStr "x") one_more))
      = (inr results, m') ∧
    (KStr "x", Done) ∈ results ∧
    honeypots m' !! KStr "x"
      = Some (mkHoneypot SSHHoneypot (PStr "x") (PStr "0.0.0.0") (PInt 2200) []
                Inactive) ∧
    running m' = false.
Proof.
  destruct (@stop_all_isolates_failures sample_env
              (snd (@start_honeypot sample_env (PStr "x") one_more)))
    as (results & m' & Hrun & Hflag & _ & Heach).
  exists results, m'. split; [exact Hrun|].
  destruct (Heach (KStr "x")
              (mkHoneypot SSHHoneypot (PStr "x") (PStr "0.0.0.0") (PInt 2200) []
                 Active) ltac:(vm_compute; reflexivity)) as (_ & Hstop & _).
  destruct (Hstop eq_refl eq_refl) as [Hin Hreg].
  split; [exact Hin|]. split; [exact Hreg|exact Hflag].
Defined.

Lemma stop_all_leaves_all_inactive_witness :
  honeypots started_once !! KStr "web-honeypot-1"
    = Some (set_status Active default_web) ∧
  dom (honeypots (snd (@stop_all sample_env started_once)))
    = dom (honeypots started_once) ∧
  ∀ k h', honeypots (snd (@stop_all sample_env started_once)) !! k = Some h' →
          status h' = Inactive.
Proof.
  split; [vm_compute; reflexivity|].
  apply (@stop_all_leaves_all_inactive sample_env started_once).
  intros k h _ _. reflexivity.
Defined.

Lemma stop_honeypot_cases_witness :
  @stop_honeypot sample_env (PStr "x") one_more = (inr true, one_more) ∧
  @stop_honeypot sample_env (PStr "nobody") fresh
    = (inr false,
       add_log (mkLog WARNING [Lit "Honeypot with ID "; Fmt (PStr "nobody");
                               Lit " does not exist"]) fresh) ∧
  @stop_honeypot sample_env (PStr "ssh-honeypot-1") started_once
    = (inr true,
       add_log (mkLog INFO [Lit "Stopped honeypot "; Fmt (PStr "ssh-honeypot-1")])
         (set_honeypots (insert (KStr "ssh-honeypot-1") default_ssh)
            started_once)).
Proof.
  split; [|split].
  - apply (proj1 (@stop_honeypot_cases sample_env one_more (KStr "x"))
             (mkHoneypot SSHHoneypot (PStr "x") (PStr "0.0.0.0") (PInt 2200) []
                Inactive));
      [vm_compute; reflexivity|discriminate].
  - apply (proj1 (proj2 (@stop_honeypot_cases sample_env fresh (KStr "nobody"))));
      vm_compute; reflexivity.
  - apply (proj1 (proj2 (proj2 (@stop_honeypot_cases sample_env started_once
                                  (KStr "ssh-honeypot-1"))))
             (set_status Active default_ssh));
      vm_compute; reflexivity.
Defined.

Lemma start_honeypot_again_witness :
  fst (@start_honeypot sample_env (PStr "x") one_more) = inr true ∧
  @start_honeypot sample_env (PStr "x")
    (snd (@start_honeypot sample_env (PStr "x") one_more))
  = (inr true, snd (@start_honeypot sample_env (PStr "x") one_more)).
Proof.
  split; [vm_compute; reflexivity|].
  apply (@start_honeypot_again sample_env one_more (PStr "x")).
  vm_compute. reflexivity.
Defined.

Lemma start_then_stop_restores_witness :
  fst (@start_honeypot sample_env (PStr "x") one_more) = inr true ∧
  honeypots (snd (@start_honeypot sample_env (PStr "x") one_more)) !! KStr "x"
    = Some (mkHoneypot SSHHoneypot (PStr "x") (PStr "0.0.0.0") (PInt 2200) []
              Active) ∧
  fst (@stop_honeypot sample_env (PStr "x")
         (snd (@start_honeypot sample_env (PStr "x") one_more))) = inr true ∧
  honeypots (snd (@stop_honeypot sample_env (PStr "x")
                    (snd (@start_honeypot sample_env (PStr "x") one_more))))
    = honeypots one_more ∧
  config (snd (@stop_honeypot sample_env (PStr "x")
                 (snd (@start_honeypot sample_env (PStr "x") one_more))))
    = config one_more.
Proof.
  apply (@start_then_stop_restores sample_env one_more (KStr "x")
           (mkHoneypot SSHHoneypot (PStr "x") (PStr "0.0.0.0") (PInt 2200) []
              Inactive));
    vm_compute; reflexivity.
Defined.

Lemma get_honeypot_status_cases_witness :
  @get_honeypot_status sample_env (PStr "x") one_more
    = (inr (StatusOf
              (describe (mkHoneypot SSHHoneypot (PStr "x") (PStr "0.0.0.0")
                           (PInt 2200) [] Inactive))), one_more) ∧
  @get_honeypot_status sample_env (PStr "nobody") one_more
    = (inr NoStatus, one_more) ∧
  ∃ snapshots,
    @get_honeypot_status sample_env (PStr "") one_more
      = (inr (StatusOfAll snapshots), one_more) ∧
    dom snapshots = dom (honeypots one_more).
Proof.
  split; [|split].
  - apply (proj1 (@get_honeypot_status_cases sample_env one_more (KStr "x"))).
    reflexivity.
  - apply (proj1 (@get_honeypot_status_cases sample_env one_more (KStr "nobody"))).
    reflexivity.
  - destruct (proj2 (@get_honeypot_status_cases sample_env one_more (KStr ""))
                eq_refl) as (snapshots & Hrun & Hdom & _).
    exists snapshots. split; [exact Hrun|exact Hdom].
Defined.

Lemma load_config_unreadable_witness :
  definitions one_more ≠ [] ∧
  definitions (snd (@load_config sample_env "missing.yaml" one_more)) = [] ∧
  fst (@load_config sample_env "missing.yaml" one_more) = inr tt.
Proof.
  split; [vm_compute; discriminate|].
  destruct (@load_config_unreadable sample_env one_more "missing.yaml")
    as [Hrun Hdefs]; [left; vm_compute; reflexivity|].
  split; [exact Hdefs|]. rewrite Hrun. reflexivity.
Defined.

Lemma load_config_keeps_registry_witness :
  honeypots (snd (@load_config sample_env "missing.yaml" one_more)) !! KStr "x"
    = Some (mkHoneypot SSHHoneypot (PStr "x") (PStr "0.0.0.0") (PInt 2200) []
              Inactive) ∧
  count_definitions (KStr "x")
    (snd (@load_config sample_env "missing.yaml" one_more)) = 0%nat ∧
  count_definitions (KStr "x") one_more = 1%nat.
Proof.
  destruct (@load_config_keeps_registry sample_env one_more "missing.yaml")
    as (_ & _ & Horphan).
  destruct (Horphan
              ltac:(intros text Hfile; vm_compute in Hfile; discriminate)
              (KStr "x")
              (mkHoneypot SSHHoneypot (PStr "x") (PStr "0.0.0.0") (PInt 2200) []
                 Inactive) ltac:(vm_compute; reflexivity)) as [Hreg Hcount].
  split; [exact Hreg|]. split; [exact Hcount|]. vm_compute. reflexivity.
Defined.

Lemma save_config_effect_witness :
  disk (snd (@save_config sample_env "saved.yaml" fresh))
    = {["saved.yaml" := File (print_yaml default_config)]} ∧
  disk (snd (@save_config sample_env "" fresh)) = ∅ ∧
  disk (snd (@save_config sample_env "nodir/saved.yaml" fresh)) = ∅ ∧
  log (snd (@save_config sample_env "nodir/saved.yaml" fresh))
    = [mkLog ERROR [Lit "Failed to save configuration: "; FmtExn OSError]] ∧
  disk (snd (@save_config sample_env "logs"
               (set_disk {["logs" := Directory]} fresh)))
    = {["logs" := Directory]} ∧
  disk (snd (@save_config sample_env "logs/saved.yaml"
               (set_disk {["logs" := Directory]} fresh)))
    = <["logs/saved.yaml" := File (print_yaml default_config)]>
        {["logs" := Directory]}.
Proof.
  destruct (@save_config_effect sample_env fresh "saved.yaml")
    as (_ & _ & _ & _ & _ & _ & _ & Hwritten).
  destruct (@save_config_effect sample_env fresh "")
    as (_ & _ & _ & _ & Hempty & _).
  destruct (@save_config_effect sample_env fresh "nodir/saved.yaml")
    as (_ & _ & _ & _ & _ & _ & Hmissing & _).
  destruct (@save_config_effect sample_env
              (set_disk {["logs" := Directory]} fresh) "logs")
    as (_ & _ & _ & _ & _ & Hdir & _).
  destruct (@save_config_effect sample_env
              (set_disk {["logs" := Directory]} fresh) "logs/saved.yaml")
    as (_ & _ & _ & _ & _ & _ & _ & Hinside).
  split; [exact (proj1 (Hwritten ltac:(vm_compute; reflexivity)))|].
  split; [exact (proj1 (Hempty eq_refl))|].
  pose proof (Hmissing "nodir" "saved.yaml" eq_refl eq_refl
                ltac:(discriminate) ltac:(vm_compute; reflexivity))
    as [Hdisk Hlog].
  split; [exact Hdisk|]. split; [exact Hlog|].
  split; [exact (proj1 (Hdir ltac:(vm_compute; reflexivity)))|].
  exact (proj1 (Hinside ltac:(vm_compute; reflexivity))).
Defined.

Lemma saved_config_survives_restart_witness :
  config (@init sample_env (Some "saved.yaml")
            (disk (snd (@save_config sample_env "saved.yaml" started_once))))
    = default_config_loaded ∧
  Forall2 same_fields (definitions started_once)
    (definitions (@init sample_env (Some "saved.yaml")
                    (disk (snd (@save_config sample_env "saved.yaml"
                                  started_once))))) ∧
  honeypots (@init sample_env (Some "saved.yaml")
               (disk (snd (@save_config sample_env "saved.yaml" started_once))))
    = ∅ ∧
  size (honeypots started_once) = 2%nat.
Proof.
  destruct (@saved_config_survives_restart sample_env started_once "saved.yaml"
              default_config_loaded)
    as (Hcfg & Hdefs & Hreg & _).
  - vm_compute. reflexivity.
  - vm_compute. reflexivity.
  - vm_compute. reflexivity.
  - split; [exact Hcfg|]. split; [apply Hdefs; reflexivity|].
    split; [exact Hreg|]. vm_compute. reflexivity.
Defined.

Lemma start_all_keeps_instances_witness :
  honeypots (snd (@start_all sample_env one_more)) !! KStr "x"
    = Some (mkHoneypot SSHHoneypot (PStr "x") (PStr "0.0.0.0") (PInt 2200) []
              Inactive) ∨
  honeypots (snd (@start_all sample_env one_more)) !! KStr "x"
    = Some (set_status Active
              (mkHoneypot SSHHoneypot (PStr "x") (PStr "0.0.0.0") (PInt 2200) []
                 Inactive)).
Proof.
  apply (@start_all_keeps_instances sample_env one_more (KStr "x")).
  vm_compute. reflexivity.
Defined.

Lemma start_all_stops_at_bad_definition_witness :
  @start_all sample_env nameless_first
    = (inl (KeyError "id"), set_running true nameless_first) ∧
  honeypots (snd (@start_all sample_env nameless_first)) = ∅.
Proof.
  assert (@start_all sample_env nameless_first
          = (inl (KeyError "id"), set_running true nameless_first)) as Hrun.
  { apply (@start_all_stops_at_bad_definition sample_env nameless_first
             (PDict [("type", PStr "SSH")])
             [PDict [("id", PStr "late"); ("type", PStr "SSH")]]);
      vm_compute; reflexivity. }
  split; [exact Hrun|]. rewrite Hrun. reflexivity.
Defined.

Lemma ensure_created_defaults_witness :
  (∃ m', @ensure_created sample_env
           (PDict [("id", PStr "plain"); ("type", PStr "web")]) bare_definitions
           = (inr tt, m') ∧
         honeypots m'
           = <[KStr "plain" := mkHoneypot WebHoneypot (PStr "plain")
                                 (PStr "0.0.0.0") (PInt 0) [] Inactive]>
               (honeypots bare_definitions)) ∧
  @ensure_created sample_env
    (PDict [("id", PStr "twice"); ("type", PStr "ssh"); ("port", PInt 2200);
            ("options", PDict [("port", PInt 2201)])]) port_given_twice
    = (inl TypeError, port_given_twice) ∧
  @start_all sample_env port_given_twice
    = (inl TypeError, set_running true port_given_twice).
Proof.
  split; [|split].
  - apply (proj2 (proj2 (@ensure_created_defaults sample_env bare_definitions
                           [("id", PStr "plain"); ("type", PStr "web")]
                           (PStr "plain") (KStr "plain") "web"
                           eq_refl eq_refl ltac:(vm_compute; reflexivity)
                           eq_refl))
             WebHoneypot []);
      vm_compute; reflexivity.
  - apply (proj1 (proj2 (@ensure_created_defaults sample_env port_given_twice
                           [("id", PStr "twice"); ("type", PStr "ssh");
                            ("port", PInt 2200);
                            ("options", PDict [("port", PInt 2201)])]
                           (PStr "twice") (KStr "twice") "ssh"
                           eq_refl eq_refl ltac:(vm_compute; reflexivity)
                           eq_refl))
             [("port", PInt 2201)] "port" (PInt 2201)).
    + reflexivity.
    + apply list_elem_of_here.
    + unfold create_honeypot_parameters. set_solver.
  - vm_compute. reflexivity.
Defined.

Lemma default_definitions_startable :
  Forall (@startable sample_env) (definitions fresh).
Proof.
  change (definitions fresh)
    with (match default_config with
          | PDict [(_, PList l)] => l
          | _ => []
          end).
  cbn [default_config].
  repeat constructor.
  - exists (PStr "ssh-honeypot-1"), (KStr "ssh-honeypot-1"), "SSH", SSHHoneypot,
      (PStr "0.0.0.0"), (PInt 2222),
      (PDict [("banner", PStr "SSH-2.0-OpenSSH_8.2p1 Ubuntu-4ubuntu0.5")]),
      [("banner", PStr "SSH-2.0-OpenSSH_8.2p1 Ubuntu-4ubuntu0.5")].
    repeat split; vm_compute; reflexivity.
  - exists (PStr "web-honeypot-1"), (KStr "web-honeypot-1"), "Web", WebHoneypot,
      (PStr "0.0.0.0"), (PInt 8080),
      (PDict [("server_type", PStr "Apache/2.4.41 (Ubuntu)")]),
      [("server_type", PStr "Apache/2.4.41 (Ubuntu)")].
    repeat split; vm_compute; reflexivity.
Qed.

Lemma start_all_covers_definitions_witness :
  ∃ results m',
    @start_all sample_env fresh = (inr results, m') ∧
    ∀ d, d ∈ definitions fresh →
         ∃ honeypot_id k, py_getitem d "id" = inr honeypot_id ∧
                          to_key honeypot_id = Some k ∧
                          is_Some (honeypots m' !! k) ∧
                          ∃ r, (k, r) ∈ results.
Proof.
  apply (@start_all_covers_definitions sample_env fresh (definitions fresh)).
  - vm_compute. reflexivity.
  - apply default_definitions_startable.
Defined.

Lemma toggle_touches_status_of_id_only_witness :
  Dashboard.toggleHoneypotStatus "b"
    [Dashboard.mkRow "a" "Active" 15%nat; Dashboard.mkRow "b" "Inactive" 5%nat]
    !! 0%nat
  = Some (Dashboard.mkRow "a" "Active" 15%nat).
Proof.
  apply (proj2 (proj2 (proj2
           (@toggle_touches_status_of_id_only nat "b"
              [Dashboard.mkRow "a" "Active" 15%nat;
               Dashboard.mkRow "b" "Inactive" 5%nat])))).
  - reflexivity.
  - discriminate.
Defined.

Lemma toggle_twice_witness :
  Dashboard.toggleHoneypotStatus "b"
    (Dashboard.toggleHoneypotStatus "b"
       [Dashboard.mkRow "a" "Error" 15%nat; Dashboard.mkRow "b" "Inactive" 5%nat])
  = [Dashboard.mkRow "a" "Error" 15%nat; Dashboard.mkRow "b" "Inactive" 5%nat].
Proof.
  apply (@toggle_twice nat "b").
  intros hp Hin Hid.
  apply elem_of_cons in Hin as [->|Hin]; [discriminate Hid|].
  apply elem_of_cons in Hin as [->|Hin]; [by right|].
  by apply elem_of_nil in Hin.
Defined.
